(** * rviz_topmap: the node-controller manager

    A shallow embedding of [src/node_manager.cpp] (class [NodeManager] and
    its tree container [NodeControllerContainer]) together with the part of
    [NodeController] that the manager relies on.

    Controllers are heap objects referred to by address; the manager holds
    addresses ([current_], the children of [root_property_]).  A C++ pointer
    is an [option addr], [None] being [NULL].  Every manager operation is a
    computation over the program state that either returns a value and a
    new state or stops on a fault (null or dangling dereference). *)

From stdpp Require Import gmap strings list fin_maps.
From Stdlib Require Import ZArith Lia.

#[local] Set Warnings "-register-all".

Abbreviation addr := positive.

(** ** Host values: [QVariant] and [rviz::Config] *)

(** A float is carried as an opaque scalar: the manager never computes with
    one, it only moves it between a property and a config node. *)
Abbreviation float := Z.

Inductive QVariant : Type :=
  | QString (s : string)
  | QBool (b : bool)
  | QFloat (f : float).

(** [rviz::Config]: a tree of maps, lists and scalar values.  A map keeps one
    child per key.  An invalid handle (the result of looking up an absent
    child) is [None : option Config]. *)
Inductive Config : Type :=
  | Empty
  | Value (v : QVariant)
  | Map (m : list (string * Config))
  | List (l : list Config).

Module Cfg.

Fixpoint assoc_get (key : string) (m : list (string * Config)) : option Config :=
  match m with
  | [] => None
  | (k, c) :: m' => if String.eqb k key then Some c else assoc_get key m'
  end.

Fixpoint assoc_set (key : string) (c : Config) (m : list (string * Config))
  : list (string * Config) :=
  match m with
  | [] => [(key, c)]
  | (k, c') :: m' =>
      if String.eqb k key then (k, c) :: m' else (k, c') :: assoc_set key c m'
  end.

(** The entries of a node once [setType(Map)] has run on it: a node of any
    other type loses its data. *)
Definition as_map (c : Config) : list (string * Config) :=
  match c with Map m => m | _ => [] end.

Definition as_list (c : Config) : list Config :=
  match c with List l => l | _ => [] end.

Definition mapGetChild (key : string) (c : option Config) : option Config :=
  match c with
  | Some (Map m) => assoc_get key m
  | _ => None
  end.

Definition mapGetValue (key : string) (c : option Config) : option QVariant :=
  match mapGetChild key c with
  | Some (Value v) => Some v
  | _ => None
  end.

Definition mapGetString (key : string) (c : option Config) : option string :=
  match mapGetValue key c with
  | Some (QString s) => Some s
  | _ => None
  end.

Definition mapGetBool (key : string) (c : option Config) : option bool :=
  match mapGetValue key c with
  | Some (QBool b) => Some b
  | _ => None
  end.

Definition mapGetFloat (key : string) (c : option Config) : option float :=
  match mapGetValue key c with
  | Some (QFloat f) => Some f
  | _ => None
  end.

(** [mapMakeChild(key)] followed by writing [child] through the returned
    handle. *)
Definition mapSetChild (key : string) (child : Config) (c : Config) : Config :=
  Map (assoc_set key child (as_map c)).

Definition mapSetValue (key : string) (v : QVariant) (c : Config) : Config :=
  mapSetChild key (Value v) c.

Definition listLength (c : option Config) : Z :=
  match c with
  | Some (List l) => Z.of_nat (length l)
  | _ => 0%Z
  end.

Definition listChildAt (i : Z) (c : option Config) : option Config :=
  match c with
  | Some (List l) => if (i <? 0)%Z then None else l !! Z.to_nat i
  | _ => None
  end.

(** [listAppendNew()] followed by writing [child] through the returned
    handle. *)
Definition listAppend (child : Config) (c : Config) : Config :=
  List (as_list c ++ [child]).

End Cfg.

(** ** Controllers *)

(** The values of the five tuning properties declared in
    [node_controller.h]. *)
Record Tuning : Type := mkTuning {
  near_clip_property_ : float;
  stereo_enable_ : bool;
  stereo_eye_swap_ : bool;
  stereo_eye_separation_ : float;
  stereo_focal_distance_ : float
}.

Abbreviation DisplayContext := positive.

Record NodeController : Type := mkNodeController {
  class_id_ : string;
  name_ : string;
  parent_ : bool;                    (* rviz::Property::parent_ is the manager's root *)
  context_of : option DisplayContext; (* set by initialize *)
  is_active_ : bool;
  tuning_ : Tuning
}.

Definition setClassId (class_id : string) (o : NodeController) : NodeController :=
  mkNodeController class_id (name_ o) (parent_ o) (context_of o) (is_active_ o) (tuning_ o).

Definition getClassId (o : NodeController) : string := class_id_ o.

Definition setName (name : string) (o : NodeController) : NodeController :=
  mkNodeController (class_id_ o) name (parent_ o) (context_of o) (is_active_ o) (tuning_ o).

Definition setParent (p : bool) (o : NodeController) : NodeController :=
  mkNodeController (class_id_ o) (name_ o) p (context_of o) (is_active_ o) (tuning_ o).

Definition setTuning (t : Tuning) (o : NodeController) : NodeController :=
  mkNodeController (class_id_ o) (name_ o) (parent_ o) (context_of o) (is_active_ o) t.

(** Modelled from the spec: [NodeController::NodeController()] is not among the
    sources.  A new controller has no class id, no name, no parent, no context
    and is inactive; its tuning values are what the constructor of its class
    chose. *)
Definition NodeController_new (defaults : Tuning) : NodeController :=
  mkNodeController "" "" false None false defaults.

(** Modelled from the spec: [NodeController::initialize] is not among the
    sources; it is the one-time setup that hands the host context to the
    controller. *)
Definition NodeController_initialize (context : DisplayContext) (o : NodeController)
  : NodeController :=
  mkNodeController (class_id_ o) (name_ o) (parent_ o) (Some context) (is_active_ o)
    (tuning_ o).

(** Modelled from the spec: [NodeController::save] is not among the sources;
    it serializes the class id and the tuning parameters into the map node it
    is given. *)
Definition NodeController_save (o : NodeController) (config : Config) : Config :=
  let t := tuning_ o in
  Cfg.mapSetValue "Stereo Focal Distance" (QFloat (stereo_focal_distance_ t))
    (Cfg.mapSetValue "Stereo Eye Separation" (QFloat (stereo_eye_separation_ t))
      (Cfg.mapSetValue "Stereo Eye Swap" (QBool (stereo_eye_swap_ t))
        (Cfg.mapSetValue "Enable Stereo Rendering" (QBool (stereo_enable_ t))
          (Cfg.mapSetValue "Near Clip Distance" (QFloat (near_clip_property_ t))
            (Cfg.mapSetValue "Class" (QString (getClassId o)) config))))).

(** Modelled from the spec: [NodeController::load] is not among the sources;
    it deserializes the class id and the tuning parameters.  A key that is
    absent, or whose value has another type, leaves the field as it was. *)
Definition NodeController_load (config : option Config) (o : NodeController)
  : NodeController :=
  let t := tuning_ o in
  let t' :=
    mkTuning
      (default (near_clip_property_ t) (Cfg.mapGetFloat "Near Clip Distance" config))
      (default (stereo_enable_ t) (Cfg.mapGetBool "Enable Stereo Rendering" config))
      (default (stereo_eye_swap_ t) (Cfg.mapGetBool "Stereo Eye Swap" config))
      (default (stereo_eye_separation_ t) (Cfg.mapGetFloat "Stereo Eye Separation" config))
      (default (stereo_focal_distance_ t) (Cfg.mapGetFloat "Stereo Focal Distance" config)) in
  setTuning t' (setClassId (default (class_id_ o) (Cfg.mapGetString "Class" config)) o).

(** ** Program state *)

(** A class the plugin factory knows: its display name and the tuning values
    its constructor sets. *)
Record PluginClass : Type := mkPluginClass {
  pc_name : string;
  pc_defaults : Tuning
}.

(** What the manager does that an observer can see: the subclass hooks it
    calls, the signal connections it makes, the objects it deletes and the
    signals it emits, in order. *)
Inductive Event : Type :=
  | CallMimic (new_current previous : addr)
  | CallTransitionFrom (new_current previous : addr)
  | Connect (obj : addr)
  | Disconnect (obj : addr)
  | Delete (obj : addr)
  | EmitCurrentChanged
  | EmitConfigChanged.

Record State : Type := mkState {
  context_ : DisplayContext;
  factory_ : list (string * PluginClass);
  current_ : option addr;
  render_panel_ : option positive;
  root_property_ : list addr;        (* the children of the root container, by slot *)
  heap : gmap addr NodeController;   (* the live controllers *)
  connections : list addr;           (* destroyed(obj) -> onCurrentDestroyed(obj) *)
  trace : list Event
}.

Definition set_current (c : option addr) (st : State) : State :=
  mkState (context_ st) (factory_ st) c (render_panel_ st) (root_property_ st)
    (heap st) (connections st) (trace st).

Definition set_render_panel (r : option positive) (st : State) : State :=
  mkState (context_ st) (factory_ st) (current_ st) r (root_property_ st)
    (heap st) (connections st) (trace st).

Definition set_children (l : list addr) (st : State) : State :=
  mkState (context_ st) (factory_ st) (current_ st) (render_panel_ st) l
    (heap st) (connections st) (trace st).

Definition set_heap (h : gmap addr NodeController) (st : State) : State :=
  mkState (context_ st) (factory_ st) (current_ st) (render_panel_ st)
    (root_property_ st) h (connections st) (trace st).

Definition set_connections (l : list addr) (st : State) : State :=
  mkState (context_ st) (factory_ st) (current_ st) (render_panel_ st)
    (root_property_ st) (heap st) l (trace st).

Definition log (e : Event) (st : State) : State :=
  mkState (context_ st) (factory_ st) (current_ st) (render_panel_ st)
    (root_property_ st) (heap st) (connections st) (trace st ++ [e]).

(** ** Computations that may fault *)

Inductive Fault : Type :=
  | NullDereference
  | DanglingPointer.

Inductive Outcome (A : Type) : Type :=
  | Ok (a : A) (st : State)
  | Crash (f : Fault).

Arguments Ok {A} a st.
Arguments Crash {A} f.

Definition M (A : Type) : Type := State -> Outcome A.

Definition ret {A} (a : A) : M A := fun st => Ok a st.

Definition bind {A B} (m : M A) (k : A -> M B) : M B :=
  fun st => match m st with
            | Ok a st' => k a st'
            | Crash f => Crash f
            end.

Definition crash {A} (f : Fault) : M A := fun _ => Crash f.
Definition get : M State := fun st => Ok st st.
Definition modify (f : State -> State) : M unit := fun st => Ok tt (f st).

Declare Scope mgr_scope.
Delimit Scope mgr_scope with mgr.
Notation "x <- m ;; k" := (bind m (fun x => k))
  (at level 100, m at next level, right associativity) : mgr_scope.
Notation "m ;;; k" := (bind m (fun _ => k))
  (at level 100, right associativity) : mgr_scope.
Local Open Scope mgr_scope.

(** Dereference a pointer: [NULL] and freed objects fault. *)
Definition deref (p : option addr) : M NodeController :=
  fun st => match p with
            | None => Crash NullDereference
            | Some a => match heap st !! a with
                        | Some o => Ok o st
                        | None => Crash DanglingPointer
                        end
            end.

(** Run a member function that updates the object behind [p]. *)
Definition update_obj (p : option addr) (f : NodeController -> NodeController) : M unit :=
  fun st => match p with
            | None => Crash NullDereference
            | Some a => match heap st !! a with
                        | Some o => Ok tt (set_heap (<[a := f o]> (heap st)) st)
                        | None => Crash DanglingPointer
                        end
            end.

(** [new T]: the object gets an address that no live object has. *)
Definition alloc (o : NodeController) : M addr :=
  fun st => let a := fresh (dom (heap st)) in
            Ok a (set_heap (<[a := o]> (heap st)) st).

(** C++ [int]: 32-bit two's complement. *)
Definition wrap_int (z : Z) : Z := ((z + 2 ^ 31) mod 2 ^ 32 - 2 ^ 31)%Z.

(** ** The slot connected to every current controller *)

(** [NodeManager::onCurrentDestroyed] *)
Definition onCurrentDestroyed (obj : option addr) : M unit :=
  fun st =>
    if decide (obj = current_ st)
    then Ok tt (set_current None st)
    else Ok tt st.

Fixpoint foreach {A} (l : list A) (body : A -> M unit) : M unit :=
  match l with
  | [] => ret tt
  | x :: l' => body x ;;; foreach l' body
  end.

(** ** The host's property tree, as far as the root container uses it *)

Module Property.

Definition numChildren (st : State) : Z := Z.of_nat (length (root_property_ st)).

Definition childAt (index : Z) (st : State) : option addr :=
  if ((0 <=? index) && (index <? numChildren st))%Z
  then root_property_ st !! Z.to_nat index
  else None.

Definition insert_at (i : nat) (a : addr) (l : list addr) : list addr :=
  firstn i l ++ a :: skipn i l.

(** [rviz::Property::addChild]: an index that is negative or past the end
    means "at the end". *)
Definition addChild (child : option addr) (index : Z) : M unit :=
  match child with
  | None => ret tt
  | Some a =>
      st <- get ;;
      let num_children := numChildren st in
      let index := if ((index <? 0) || (num_children <? index))%Z
                   then num_children else index in
      modify (set_children (insert_at (Z.to_nat index) a (root_property_ st))) ;;;
      update_obj child (setParent true)
  end.

Definition takeChildAt (index : Z) : M (option addr) :=
  st <- get ;;
  if ((index <? 0) || (numChildren st <=? index))%Z
  then ret None
  else
    let child := root_property_ st !! Z.to_nat index in
    modify (set_children (delete (Z.to_nat index) (root_property_ st))) ;;;
    update_obj child (setParent false) ;;;
    ret child.

Fixpoint index_of (a : addr) (l : list addr) : option nat :=
  match l with
  | [] => None
  | x :: l' => if decide (x = a) then Some 0%nat else S <$> index_of a l'
  end.

(** [rviz::Property::takeChild]: the first slot that holds [child]. *)
Definition takeChild (child : addr) : M (option addr) :=
  st <- get ;;
  match index_of child (root_property_ st) with
  | Some i => takeChildAt (Z.of_nat i)
  | None => ret None
  end.

(** C++ [delete p] on a controller: [~Property] leaves the parent's child
    list, [~QObject] emits [destroyed(p)] to every connected slot, and the
    object is gone. *)
Definition destroy (p : option addr) : M unit :=
  match p with
  | None => ret tt
  | Some a =>
      o <- deref p ;;
      modify (log (Delete a)) ;;;
      (if parent_ o then takeChild a else ret None) ;;;
      st <- get ;;
      foreach (filter (fun x => x = a) (connections st))
              (fun _ => onCurrentDestroyed p) ;;;
      modify (fun st => set_connections (filter (fun x => x <> a) (connections st)) st) ;;;
      modify (fun st => set_heap (delete a (heap st)) st)
  end.

(** [rviz::Property::removeChildren(start_index)]: detach and delete every
    child from [start_index] on, then erase their slots. *)
Definition removeChildren (start_index : Z) : M unit :=
  st <- get ;;
  foreach (skipn (Z.to_nat start_index) (root_property_ st))
          (fun a => update_obj (Some a) (setParent false) ;;; destroy (Some a)) ;;;
  modify (fun st => set_children (firstn (Z.to_nat start_index) (root_property_ st)) st).

End Property.

(** ** [NodeControllerContainer] *)

Module NodeControllerContainer.

Definition addChild (child : option addr) (index : Z) : M unit :=
  let index := if (index =? 0)%Z then 1%Z else index in
  Property.addChild child index.

Definition addChildToFront (child : option addr) : M unit :=
  Property.addChild child 0.

End NodeControllerContainer.

(** Modelled from the spec: [node_manager.h] is not among the sources.  It
    gives the index argument of [add] and of the container's [addChild] a
    default, used by the one-argument calls in [load] and
    [copyCurrentToList]; the default is the host's "at the end" index. *)
Definition default_index : Z := (-1)%Z.

(** ** The plugin factory *)

Module Factory.

Fixpoint find (class_id : string) (classes : list (string * PluginClass))
  : option PluginClass :=
  match classes with
  | [] => None
  | (k, pc) :: rest => if String.eqb k class_id then Some pc else find class_id rest
  end.

(** [factory_->make(class_id, &error)]: a new instance carrying the class id
    it was made from, or [NULL] when the class is unknown. *)
Definition make (class_id : string) : M (option addr) :=
  st <- get ;;
  match find class_id (factory_ st) with
  | Some pc =>
      a <- alloc (setClassId class_id (NodeController_new (pc_defaults pc))) ;;
      ret (Some a)
  | None => ret None
  end.

(** [factory_->getClassName(class_id)]; the manager only asks for the name
    of a class the factory has just instantiated. *)
Definition getClassName (class_id : string) (st : State) : string :=
  match find class_id (factory_ st) with
  | Some pc => pc_name pc
  | None => class_id
  end.

End Factory.

(** ** [NodeManager] *)

(** [NodeManager::NodeManager(context)]: no current controller, no render
    panel, an empty tree. *)
Definition NodeManager_new (context : DisplayContext)
    (classes : list (string * PluginClass)) : State :=
  mkState context classes None None [] ∅ [] [].

Module NodeManager.

Definition getCurrent : M (option addr) := fun st => Ok (current_ st) st.

Definition create (class_id : string) : M (option addr) :=
  view <- Factory.make class_id ;;
  st <- get ;;
  update_obj view (NodeController_initialize (context_ st)) ;;;
  ret view.

(** [new_current->mimic(previous)] and [new_current->transitionFrom(previous)]
    are left to the subclasses; the call itself is recorded. *)
Definition mimic (new_current previous : addr) : M unit :=
  deref (Some new_current) ;;; deref (Some previous) ;;;
  modify (log (CallMimic new_current previous)).

Definition transitionFrom (new_current previous : addr) : M unit :=
  deref (Some new_current) ;;; deref (Some previous) ;;;
  modify (log (CallTransitionFrom new_current previous)).

Definition connect_destroyed (obj : option addr) : M unit :=
  match obj with
  | Some a =>
      modify (fun st => log (Connect a) (set_connections (a :: connections st) st))
  | None => ret tt
  end.

Definition disconnect_destroyed (obj : addr) : M unit :=
  modify (fun st =>
    log (Disconnect obj)
        (set_connections (filter (fun x => x <> obj) (connections st)) st)).

Definition setCurrent (new_current : option addr) (mimic_view : bool) : M unit :=
  previous <- getCurrent ;;
  match previous with
  | Some prev =>
      match new_current with
      | Some new =>
          if mimic_view then mimic new prev else transitionFrom new prev
      | None => crash NullDereference
      end ;;;
      disconnect_destroyed prev
  | None => ret tt
  end ;;;
  update_obj new_current (setName "Current View") ;;;
  connect_destroyed new_current ;;;
  modify (set_current new_current) ;;;
  NodeControllerContainer.addChildToFront new_current ;;;
  Property.destroy previous ;;;
  (* if( render_panel_ ) { } : the body is commented out *)
  modify (log EmitCurrentChanged).

Definition copy (source : option addr) : M (option addr) :=
  src <- deref source ;;
  let config := NodeController_save src Empty in
  copy_of_source <- create (getClassId src) ;;
  update_obj copy_of_source (NodeController_load (Some config)) ;;;
  ret copy_of_source.

Definition initialize : M unit :=
  view <- create "rviz/Orbit" ;;
  setCurrent view false.

(** [update(wall_dt, ros_dt)] forwards to the current controller, if any. *)
Definition update : M unit :=
  current <- getCurrent ;;
  match current with
  | Some _ => deref current ;;; ret tt
  | None => ret tt
  end.

Definition setCurrentFrom (source_view : option addr) : M unit :=
  match source_view with
  | None => ret tt
  | Some _ =>
      previous <- getCurrent ;;
      if decide (source_view <> previous)
      then
        new_current <- copy source_view ;;
        setCurrent new_current false ;;;
        modify (log EmitConfigChanged)
      else ret tt
  end.

Definition setCurrentNodeControllerType (new_class_id : string) : M unit :=
  view <- create new_class_id ;;
  setCurrent view true.

Definition copyCurrentToList : M unit :=
  current <- getCurrent ;;
  match current with
  | Some _ =>
      new_copy <- copy current ;;
      o <- deref new_copy ;;
      st <- get ;;
      update_obj new_copy (setName (Factory.getClassName (getClassId o) st)) ;;;
      NodeControllerContainer.addChild new_copy default_index
  | None => ret tt
  end.

Definition getViewAt (index : Z) (st : State) : option addr :=
  let index := if (index <? 0)%Z then 0%Z else index in
  Property.childAt (wrap_int (index + 1)) st.

Definition getNumViews (st : State) : Z :=
  let count := Property.numChildren st in
  if (count <=? 0)%Z then 0%Z else (count - 1)%Z.

Definition add (view : option addr) (index : Z) : M unit :=
  st <- get ;;
  let index := if (index <? 0)%Z
               then Property.numChildren st
               else wrap_int (index + 1) in
  NodeControllerContainer.addChild view index.

(** The loop of [take]: [n] iterations remain, the counter is [i]. *)
Fixpoint take_from (n : nat) (i : Z) (view : option addr) : M (option addr) :=
  match n with
  | O => ret None
  | S n' =>
      st <- get ;;
      if (i <? getNumViews st)%Z
      then
        if decide (getViewAt i st = view)
        then Property.takeChildAt (wrap_int (i + 1))
        else take_from n' (wrap_int (i + 1)) view
      else ret None
  end.

Definition take (view : option addr) : M (option addr) :=
  st <- get ;;
  take_from (Z.to_nat (getNumViews st)) 0 view.

Definition takeAt (index : Z) : M (option addr) :=
  if (index <? 0)%Z
  then ret None
  else Property.takeChildAt (wrap_int (index + 1)).

(** The loop of [load] over the entries of the "Saved" list. *)
Fixpoint load_saved (n : nat) (i : Z) (saved_views_config : option Config) : M unit :=
  match n with
  | O => ret tt
  | S n' =>
      let view_config := Cfg.listChildAt i saved_views_config in
      match Cfg.mapGetString "Class" view_config with
      | Some class_id =>
          view <- create class_id ;;
          update_obj view (NodeController_load view_config) ;;;
          add view default_index
      | None => ret tt
      end ;;;
      load_saved n' (wrap_int (i + 1)) saved_views_config
  end.

Definition load (config : option Config) : M unit :=
  let current_config := Cfg.mapGetChild "Current" config in
  match Cfg.mapGetString "Class" current_config with
  | Some class_id =>
      new_current <- create class_id ;;
      update_obj new_current (NodeController_load current_config) ;;;
      setCurrent new_current false
  | None => ret tt
  end ;;;
  let saved_views_config := Cfg.mapGetChild "Saved" config in
  Property.removeChildren 1 ;;;
  let num_saved := Cfg.listLength saved_views_config in
  load_saved (Z.to_nat num_saved) 0 saved_views_config.

(** The loop of [save] over the saved views; [saved_views_config] is the
    "Saved" node as written so far. *)
Fixpoint save_views (n : nat) (i : Z) (saved_views_config : Config) : M Config :=
  match n with
  | O => ret saved_views_config
  | S n' =>
      st <- get ;;
      if (i <? getNumViews st)%Z
      then
        view <- deref (getViewAt i st) ;;
        save_views n' (wrap_int (i + 1))
          (Cfg.listAppend (NodeController_save view Empty) saved_views_config)
      else ret saved_views_config
  end.

(** [save] returns the config node as it stands after the call. *)
Definition save (config : Config) : M Config :=
  current <- getCurrent ;;
  cur <- deref current ;;
  let config := Cfg.mapSetChild "Current" (NodeController_save cur Empty) config in
  st <- get ;;
  saved_views_config <- save_views (Z.to_nat (getNumViews st)) 0 Empty ;;
  ret (Cfg.mapSetChild "Saved" saved_views_config config).

Definition setRenderPanel (render_panel : option positive) : M unit :=
  modify (set_render_panel render_panel).

End NodeManager.

(** ** Vocabulary of the properties *)

(** Every slot of the tree holds a live controller. *)
Definition children_live (st : State) : Prop :=
  forall a, a ∈ root_property_ st -> is_Some (heap st !! a).

(** Every slot of the tree holds a live controller whose parent is the root. *)
Definition children_owned (st : State) : Prop :=
  forall a, a ∈ root_property_ st ->
    exists o, heap st !! a = Some o /\ parent_ o = true.

(** The child list once the first slot holding [a] has been taken out. *)
Definition remove_first (a : addr) (l : list addr) : list addr :=
  match Property.index_of a l with
  | Some i => delete i l
  | None => l
  end.

(** The state that [delete p] leaves when [p] is the live object [po]: [p]
    is out of its parent's child list, the slot connected to its
    [destroyed] signal has run, its connections and the object are gone. *)
Definition after_destroy (p : addr) (po : NodeController) (st : State) : State :=
  mkState (context_ st) (factory_ st)
    (if decide (Some p = current_ st /\ p ∈ connections st) then None else current_ st)
    (render_panel_ st)
    (if parent_ po then remove_first p (root_property_ st) else root_property_ st)
    (delete p (heap st))
    (filter (fun x => x <> p) (connections st))
    (trace st ++ [Delete p]).

(** The "Saved" node that [save] builds from the saved views, in slot
    order: one appended entry per view; with no view the node stays empty. *)
Definition views_config (views : list NodeController) : Config :=
  fold_left (fun acc o => Cfg.listAppend (NodeController_save o Empty) acc) views Empty.

(** The config node after [save] has written a current controller and the
    saved views into [config]. *)
Definition saved_config (cur : NodeController) (views : list NodeController)
    (config : Config) : Config :=
  Cfg.mapSetChild "Saved" (views_config views)
    (Cfg.mapSetChild "Current" (NodeController_save cur Empty) config).

(** The tree owns its children once each, and the current pointer, if set,
    points to a live controller. *)
Definition well_formed (st : State) : Prop :=
  NoDup (root_property_ st)
  /\ children_owned st
  /\ (forall c, current_ st = Some c -> is_Some (heap st !! c)).

(** Slot 0 of the tree holds the current controller. *)
Definition slot0_is_current (st : State) : Prop :=
  exists c, current_ st = Some c /\ root_property_ st !! 0%nat = Some c.

(** Slot 0 of the tree is reserved: what it holds, if anything, is the
    current controller. *)
Definition slot0_reserved (st : State) : Prop :=
  forall a, root_property_ st !! 0%nat = Some a -> current_ st = Some a.

(** The invariant of a manager in use: the tree is well formed and its
    slot 0 holds the current controller. *)
Definition manager_invariant (st : State) : Prop :=
  well_formed st /\ slot0_is_current st.

(** [st'] is [st] with one more controller [o] at an address [a] that was
    not in use; the new controller has no parent yet. *)
Definition allocated (st : State) (a : addr) (o : NodeController) (st' : State) : Prop :=
  heap st !! a = None /\ parent_ o = false /\ st' = set_heap (<[a := o]> (heap st)) st.

(** The controller at [b] is live and has the class id and the tuning values
    of [o]. *)
Definition holds_copy_of (st : State) (b : addr) (o : NodeController) : Prop :=
  exists o', heap st !! b = Some o'
    /\ class_id_ o' = class_id_ o /\ tuning_ o' = tuning_ o.

(** The factory of [st] knows the class of [o]. *)
Definition class_known (st : State) (o : NodeController) : Prop :=
  is_Some (Factory.find (class_id_ o) (factory_ st)).

(** ** What can happen to a manager *)

(** The calls a client can make on the manager, and the deletion of a
    controller by somebody else. *)
Inductive Action : Type :=
  | DoInitialize
  | DoCreate (class_id : string)
  | DoSetCurrentFrom (source_view : option addr)
  | DoSetCurrentNodeControllerType (new_class_id : string)
  | DoCopyCurrentToList
  | DoAdd (view : option addr) (index : Z)
  | DoTake (view : option addr)
  | DoTakeAt (index : Z)
  | DoLoad (config : option Config)
  | DoDelete (obj : addr).

Definition perform (a : Action) : M unit :=
  match a with
  | DoInitialize => NodeManager.initialize
  | DoCreate class_id => NodeManager.create class_id ;;; ret tt
  | DoSetCurrentFrom source_view => NodeManager.setCurrentFrom source_view
  | DoSetCurrentNodeControllerType id => NodeManager.setCurrentNodeControllerType id
  | DoCopyCurrentToList => NodeManager.copyCurrentToList
  | DoAdd view index => NodeManager.add view index
  | DoTake view => NodeManager.take view ;;; ret tt
  | DoTakeAt index => NodeManager.takeAt index ;;; ret tt
  | DoLoad config => NodeManager.load config
  | DoDelete obj => Property.destroy (Some obj)
  end.

(** The states a manager can be in: as constructed, or after an action that
    returned. *)
Inductive reachable : State -> Prop :=
  | reachable_new (context : DisplayContext) (classes : list (string * PluginClass)) :
      reachable (NodeManager_new context classes)
  | reachable_step (st : State) (a : Action) (st' : State) :
      reachable st -> perform a st = Ok tt st' -> reachable st'.

(** An action within the rules of use: a view handed to [add] is not yet in
    the tree, nobody but the manager deletes the current controller, the
    index given to [takeAt] is a C [int], and [take] searches a tree whose
    size is one. *)
Definition admissible (a : Action) (st : State) : Prop :=
  match a with
  | DoAdd (Some v) _ => v ∉ root_property_ st
  | DoDelete obj => current_ st <> Some obj
  | DoTakeAt index => (- 2 ^ 31 <= index < 2 ^ 31)%Z
  | DoTake _ => (Property.numChildren st < 2 ^ 31)%Z
  | _ => True
  end.

(** A manager used as fixture: two classes known to the factory. *)
Module Fixture.

Definition classes : list (string * PluginClass) :=
  [("rviz/Orbit", mkPluginClass "Orbit" (mkTuning 1 true false 6 100));
   ("rviz_topmap/Edge", mkPluginClass "Edge" (mkTuning 2 false true 7 200))].

Definition fresh_manager : State := NodeManager_new 1%positive classes.

Definition run {A} (m : M A) (st : State) : State :=
  match m st with
  | Ok _ st' => st'
  | Crash _ => st
  end.

(** After [initialize()]: one current controller, no saved view. *)
Definition initialized : State :=
  Eval vm_compute in run NodeManager.initialize fresh_manager.

(** After [initialize()] and one [copyCurrentToList()]. *)
Definition with_one_saved : State :=
  Eval vm_compute in run NodeManager.copyCurrentToList initialized.

(** After [initialize()] and two [copyCurrentToList()]. *)
Definition with_two_saved : State :=
  Eval vm_compute in
    run (NodeManager.copyCurrentToList ;;; NodeManager.copyCurrentToList) initialized.

(** A current controller of one class and saved views of both classes. *)
Definition mixed : State :=
  Eval vm_compute in
    run (NodeManager.setCurrentNodeControllerType "rviz_topmap/Edge" ;;;
         NodeManager.copyCurrentToList) with_one_saved.

(** [with_two_saved] and one more controller, created but not yet owned by
    the manager (address 4). *)
Definition with_candidate : State :=
  Eval vm_compute in run (NodeManager.create "rviz_topmap/Edge") with_two_saved.

(** [with_two_saved] after somebody else deleted the current controller. *)
Definition current_deleted : State :=
  Eval vm_compute in run (Property.destroy (Some 1%positive)) with_two_saved.

(** A controller created on a manager on which [initialize()] was never
    called. *)
Definition created_before_initialize : State :=
  Eval vm_compute in run (NodeManager.create "rviz_topmap/Edge") fresh_manager.

(** A controller created and added before [initialize()] was ever called. *)
Definition added_before_initialize : State :=
  Eval vm_compute in
    run (v <- NodeManager.create "rviz_topmap/Edge" ;; NodeManager.add v (-1))
        fresh_manager.

End Fixture.

(** * Properties *)

(** ** Reasoning about computations *)

Ltac munfold :=
  unfold bind, ret, get, modify, crash, NodeManager.getCurrent in *.

(** Reduce the setters and projections of a state, and nothing else. *)
Ltac norm :=
  unfold set_heap, set_children, set_connections, set_current, set_render_panel, log,
    after_destroy;
  cbn [context_ factory_ current_ render_panel_ root_property_ heap connections trace].

Lemma bind_Ok {A B} (m : M A) (k : A -> M B) st a st' :
  m st = Ok a st' -> bind m k st = k a st'.
Proof. intros H. unfold bind. now rewrite H. Qed.

Lemma bind_Crash {A B} (m : M A) (k : A -> M B) st f :
  m st = Crash f -> bind m k st = Crash f.
Proof. intros H. unfold bind. now rewrite H. Qed.

Lemma bind_inv {A B} (m : M A) (k : A -> M B) st b st2 :
  bind m k st = Ok b st2 ->
  exists a st1, m st = Ok a st1 /\ k a st1 = Ok b st2.
Proof.
  unfold bind. destruct (m st) as [a st1|f]; [eauto | discriminate].
Qed.

(** ** Counting the saved views *)

Lemma numChildren_nonneg st : (0 <= Property.numChildren st)%Z.
Proof. unfold Property.numChildren. lia. Qed.

(** C3: [getNumViews()] is the number of children of the root minus one when
    that number is positive and zero otherwise; in both cases it is the
    number of slots after the reserved slot 0. *)
Theorem getNumViews_skips_current_slot (st : State) :
  ((0 < Property.numChildren st)%Z ->
     NodeManager.getNumViews st = (Property.numChildren st - 1)%Z)
  /\ ((Property.numChildren st <= 0)%Z -> NodeManager.getNumViews st = 0%Z)
  /\ NodeManager.getNumViews st = Z.of_nat (length (skipn 1 (root_property_ st))).
Proof.
  unfold NodeManager.getNumViews, Property.numChildren.
  destruct (root_property_ st) as [|c saved].
  - simpl. repeat split; intros; reflexivity || lia.
  - change (skipn 1 (c :: saved)) with saved. cbn [length].
    destruct (Z.leb_spec (Z.of_nat (S (length saved))) 0) as [Hle|Hlt]; [lia|].
    repeat split; intros; lia.
Qed.

Lemma getNumViews_skips_current_slot_witness :
  NodeManager.getNumViews Fixture.with_two_saved = 2%Z
  /\ NodeManager.getNumViews Fixture.fresh_manager = 0%Z.
Proof.
  destruct (getNumViews_skips_current_slot Fixture.with_two_saved) as [Hpos _].
  destruct (getNumViews_skips_current_slot Fixture.fresh_manager) as [_ [Hzero _]].
  split.
  - rewrite Hpos; [reflexivity | vm_compute; reflexivity].
  - apply Hzero. vm_compute. discriminate.
Defined.

(** ** Index arguments *)

Lemma wrap_int_small z : (- 2 ^ 31 <= z < 2 ^ 31)%Z -> wrap_int z = z.
Proof.
  intros H. unfold wrap_int.
  rewrite Z.mod_small by lia. lia.
Qed.

Lemma childAt_lookup (k : nat) st :
  Property.childAt (Z.of_nat k) st = root_property_ st !! k.
Proof.
  unfold Property.childAt, Property.numChildren.
  rewrite Nat2Z.id.
  destruct (Z.leb_spec 0 (Z.of_nat k)); [|lia].
  destruct (Z.ltb_spec (Z.of_nat k) (Z.of_nat (length (root_property_ st)))); simpl.
  - reflexivity.
  - symmetry. apply lookup_ge_None. lia.
Qed.

Lemma takeChildAt_total st index :
  children_live st ->
  exists r st', Property.takeChildAt index st = Ok r st'.
Proof.
  intros Hlive. unfold Property.takeChildAt, Property.numChildren. munfold.
  destruct ((index <? 0) || (Z.of_nat (length (root_property_ st)) <=? index))%Z eqn:E.
  - eauto.
  - apply orb_false_iff in E as [E1 E2].
    apply Z.ltb_ge in E1. apply Z.leb_gt in E2.
    destruct (lookup_lt_is_Some_2 (root_property_ st) (Z.to_nat index)) as [a Ha]; [lia|].
    rewrite Ha. unfold update_obj. cbn.
    destruct (Hlive a) as [o Ho]; [eapply list_elem_of_lookup_2; eauto|].
    rewrite Ho. eauto.
Qed.

(** C4: a negative index makes [getViewAt] answer as for index 0, the first
    saved slot (tree slot 1), and makes [takeAt] return [NULL] and leave the
    state as it is; with live controllers in the tree, [takeAt] returns for
    every index ([getViewAt] is a total function of the tree). *)
Theorem negative_index_never_raises (st : State) (i j : Z) :
  (i < 0)%Z ->
  children_live st ->
  NodeManager.getViewAt i st = NodeManager.getViewAt 0 st
  /\ NodeManager.getViewAt 0 st = root_property_ st !! 1%nat
  /\ NodeManager.takeAt i st = Ok None st
  /\ exists r st', NodeManager.takeAt j st = Ok r st'.
Proof.
  intros Hi Hlive. repeat split.
  - unfold NodeManager.getViewAt.
    destruct (Z.ltb_spec i 0); [reflexivity | lia].
  - unfold NodeManager.getViewAt. simpl (if (0 <? 0)%Z then _ else _).
    rewrite wrap_int_small by lia. apply (childAt_lookup 1).
  - unfold NodeManager.takeAt.
    destruct (Z.ltb_spec i 0); [reflexivity | lia].
  - unfold NodeManager.takeAt.
    destruct (j <? 0)%Z; [unfold ret; eauto|].
    now apply takeChildAt_total.
Qed.

Lemma fixture_with_two_saved_live : children_live Fixture.with_two_saved.
Proof.
  intros a Ha. vm_compute in Ha.
  repeat (apply elem_of_cons in Ha as [->|Ha]; [vm_compute; eauto|]).
  inversion Ha.
Qed.

Lemma negative_index_never_raises_witness :
  NodeManager.getViewAt (-7) Fixture.with_two_saved = Some 2%positive
  /\ NodeManager.takeAt (-7) Fixture.with_two_saved = Ok None Fixture.with_two_saved
  /\ exists r st', NodeManager.takeAt 1 Fixture.with_two_saved = Ok r st'.
Proof.
  destruct (negative_index_never_raises Fixture.with_two_saved (-7) 1)
    as (H1 & H2 & H3 & H4); [lia | apply fixture_with_two_saved_live |].
  split; [|split].
  - rewrite H1, H2. reflexivity.
  - exact H3.
  - exact H4.
Defined.

(** ** Switching the current controller *)

(** C5: [setCurrentFrom] on the current controller returns with the state as
    it was: same current pointer, same tree, same heap, nothing added to the
    trace (neither [configChanged] nor [currentChanged]). *)
Theorem setCurrentFrom_current_is_noop (st : State) :
  NodeManager.setCurrentFrom (current_ st) st = Ok tt st.
Proof.
  unfold NodeManager.setCurrentFrom.
  destruct (current_ st) as [c|] eqn:Hc; [|reflexivity].
  munfold. rewrite Hc.
  destruct (decide (Some c <> Some c)) as [Hne|_]; [congruence | reflexivity].
Qed.

(** ** Creating controllers *)

Lemma make_total class_id st :
  exists view st1, Factory.make class_id st = Ok view st1
    /\ (view = None <-> Factory.find class_id (factory_ st) = None).
Proof.
  unfold Factory.make. munfold.
  destruct (Factory.find class_id (factory_ st)) as [pc|]; cbn.
  - eexists _, _. split; [reflexivity|]. split; discriminate.
  - eexists _, _. split; [reflexivity|]. split; reflexivity.
Qed.

Lemma make_Some class_id st pc :
  Factory.find class_id (factory_ st) = Some pc ->
  let a := fresh (dom (heap st)) in
  let o := setClassId class_id (NodeController_new (pc_defaults pc)) in
  Factory.make class_id st = Ok (Some a) (set_heap (<[a := o]> (heap st)) st).
Proof. intros H. unfold Factory.make. munfold. rewrite H. reflexivity. Qed.

Lemma make_None class_id st :
  Factory.find class_id (factory_ st) = None ->
  Factory.make class_id st = Ok None st.
Proof. intros H. unfold Factory.make. munfold. rewrite H. reflexivity. Qed.

Lemma fresh_not_live (st : State) : heap st !! fresh (dom (heap st)) = None.
Proof. apply not_elem_of_dom. apply is_fresh. Qed.

Lemma create_Some class_id st pc :
  Factory.find class_id (factory_ st) = Some pc ->
  let a := fresh (dom (heap st)) in
  let o := NodeController_initialize (context_ st)
             (setClassId class_id (NodeController_new (pc_defaults pc))) in
  NodeManager.create class_id st = Ok (Some a) (set_heap (<[a := o]> (heap st)) st).
Proof.
  intros H a o. unfold NodeManager.create.
  rewrite (bind_Ok _ _ _ _ _ (make_Some _ _ _ H)).
  munfold. unfold update_obj. cbn.
  rewrite lookup_insert_eq. cbn. unfold set_heap. cbn.
  now rewrite insert_insert_eq.
Qed.

Lemma create_None class_id st :
  Factory.find class_id (factory_ st) = None ->
  NodeManager.create class_id st = Crash NullDereference.
Proof.
  intros H. unfold NodeManager.create.
  rewrite (bind_Ok _ _ _ _ _ (make_None _ _ H)). reflexivity.
Qed.

(** C8: [create] calls [initialize] on whatever the factory returned.  When
    the factory returned [NULL] the call is a null dereference; when it
    returned a controller, [create] returns that controller, initialized
    with the manager's context and otherwise as the factory made it.  So
    [create] faults exactly when the factory returns [NULL]. *)
Theorem create_dereferences_factory_result
    (class_id : string) (st : State) (view : option addr) (st1 : State) :
  Factory.make class_id st = Ok view st1 ->
  match view with
  | None => NodeManager.create class_id st = Crash NullDereference
  | Some a =>
      exists o, heap st1 !! a = Some o
        /\ NodeManager.create class_id st =
             Ok (Some a)
                (set_heap (<[a := NodeController_initialize (context_ st) o]> (heap st1)) st1)
  end
  /\ ((exists f, NodeManager.create class_id st = Crash f) <-> view = None).
Proof.
  intros Hmake.
  destruct (Factory.find class_id (factory_ st)) as [pc|] eqn:Hfind.
  - rewrite (make_Some _ _ _ Hfind) in Hmake. inversion Hmake; subst; clear Hmake.
    rewrite (create_Some _ _ _ Hfind). split.
    + eexists. split; [cbn; apply lookup_insert_eq|].
      f_equal. unfold set_heap; cbn. now rewrite insert_insert_eq.
    + split; [intros [f Hf]; discriminate | discriminate].
  - rewrite (make_None _ _ Hfind) in Hmake. inversion Hmake; subst; clear Hmake.
    rewrite (create_None _ _ Hfind). split; [reflexivity|].
    split; [reflexivity | eauto].
Qed.

Lemma create_dereferences_factory_result_witness :
  NodeManager.create "rviz/Nowhere" Fixture.fresh_manager = Crash NullDereference
  /\ exists st', NodeManager.create "rviz/Orbit" Fixture.fresh_manager = Ok (Some 1%positive) st'.
Proof.
  split.
  - exact (proj1 (create_dereferences_factory_result
                    "rviz/Nowhere" Fixture.fresh_manager None Fixture.fresh_manager
                    eq_refl)).
  - destruct (create_dereferences_factory_result
                "rviz/Orbit" Fixture.fresh_manager (Some 1%positive) _ eq_refl)
      as [(o & _ & H) _].
    eauto.
Defined.

(** ** Copying a controller *)

Lemma load_save (o o0 : NodeController) :
  NodeController_load (Some (NodeController_save o Empty)) o0 =
  setTuning (tuning_ o) (setClassId (class_id_ o) o0).
Proof. destruct o as [cid nm par ctx act [nc se ses sep sfd]]. reflexivity. Qed.

Lemma save_depends_on_class_and_tuning (o o' : NodeController) :
  class_id_ o' = class_id_ o -> tuning_ o' = tuning_ o ->
  NodeController_save o' Empty = NodeController_save o Empty.
Proof. intros H1 H2. unfold NodeController_save, getClassId. now rewrite H1, H2. Qed.

Lemma save_load_save (o o0 : NodeController) :
  NodeController_save (NodeController_load (Some (NodeController_save o Empty)) o0) Empty
  = NodeController_save o Empty.
Proof. rewrite load_save. now apply save_depends_on_class_and_tuning. Qed.

Lemma deref_live st a o : heap st !! a = Some o -> deref (Some a) st = Ok o st.
Proof. intros H. unfold deref. now rewrite H. Qed.

Lemma update_obj_live st a o f :
  heap st !! a = Some o ->
  update_obj (Some a) f st = Ok tt (set_heap (<[a := f o]> (heap st)) st).
Proof. intros H. unfold update_obj. now rewrite H. Qed.

Lemma copy_live st x o pc :
  heap st !! x = Some o ->
  Factory.find (getClassId o) (factory_ st) = Some pc ->
  let y := fresh (dom (heap st)) in
  let o' := NodeController_load (Some (NodeController_save o Empty))
              (NodeController_initialize (context_ st)
                 (setClassId (getClassId o) (NodeController_new (pc_defaults pc)))) in
  NodeManager.copy (Some x) st = Ok (Some y) (set_heap (<[y := o']> (heap st)) st).
Proof.
  intros Hx Hfind y o'. unfold NodeManager.copy.
  rewrite (bind_Ok _ _ _ _ _ (deref_live _ _ _ Hx)).
  rewrite (bind_Ok _ _ _ _ _ (create_Some _ _ _ Hfind)).
  erewrite bind_Ok by (apply update_obj_live; cbn; apply lookup_insert_eq).
  unfold ret, set_heap; cbn. now rewrite insert_insert_eq.
Qed.

(** C1: for a live controller [x] whose class the factory accepts, [copy(x)]
    returns a new controller at an address other than [x], of the same class
    id, whose saved config equals that of [x]; it is the result of loading
    the config saved from [x] into a newly created instance of that class,
    and nothing else in the state changes. *)
Theorem copy_is_distinct_and_equal_when_saved
    (st : State) (x : addr) (o : NodeController) (pc : PluginClass) :
  heap st !! x = Some o ->
  Factory.find (getClassId o) (factory_ st) = Some pc ->
  exists y o',
    NodeManager.copy (Some x) st = Ok (Some y) (set_heap (<[y := o']> (heap st)) st)
    /\ y <> x
    /\ heap st !! y = None
    /\ getClassId o' = getClassId o
    /\ NodeController_save o' Empty = NodeController_save o Empty
    /\ o' = NodeController_load (Some (NodeController_save o Empty))
              (NodeController_initialize (context_ st)
                 (setClassId (getClassId o) (NodeController_new (pc_defaults pc)))).
Proof.
  intros Hx Hfind. eexists _, _.
  split; [apply (copy_live _ _ _ _ Hx Hfind)|].
  split; [intros E; pose proof (fresh_not_live st) as Hf; rewrite E in Hf; congruence|].
  split; [apply fresh_not_live|].
  split; [now rewrite load_save|].
  split; [apply save_load_save | reflexivity].
Qed.

Lemma copy_is_distinct_and_equal_when_saved_witness :
  exists y o',
    NodeManager.copy (Some 2%positive) Fixture.with_two_saved
      = Ok (Some y) (set_heap (<[y := o']> (heap Fixture.with_two_saved)) Fixture.with_two_saved)
    /\ y <> 2%positive
    /\ getClassId o' = "rviz/Orbit".
Proof.
  destruct (copy_is_distinct_and_equal_when_saved Fixture.with_two_saved 2%positive
              _ _ eq_refl eq_refl) as (y & o' & H1 & H2 & _ & H3 & _).
  exists y, o'. split; [exact H1 | split; [exact H2 | exact H3]].
Defined.

(** ** Deleting a controller *)

Lemma index_of_Some a l i :
  Property.index_of a l = Some i -> l !! i = Some a /\ (i < length l)%nat.
Proof.
  revert i. induction l as [|x l IH]; intros i H; [discriminate|].
  cbn in H. destruct (decide (x = a)) as [->|Hne].
  - inversion H; subst. cbn. split; [reflexivity | lia].
  - destruct (Property.index_of a l) as [j|]; [|discriminate].
    inversion H; subst. destruct (IH j eq_refl) as [H1 H2]. cbn. split; [assumption | lia].
Qed.

Lemma index_of_None a l : Property.index_of a l = None <-> a ∉ l.
Proof.
  induction l as [|x l IH]; cbn.
  - split; [intros _; apply not_elem_of_nil | reflexivity].
  - destruct (decide (x = a)) as [->|Hne].
    + split; [discriminate | intros H; exfalso; apply H; left].
    + rewrite not_elem_of_cons.
      destruct (Property.index_of a l) as [j|]; cbn.
      * split; [discriminate|]. intros [_ H]. apply IH in H. discriminate.
      * split; [|reflexivity]. intros _. split; [congruence | now apply IH].
Qed.

Lemma remove_first_cons_ne a x l : x <> a -> remove_first a (x :: l) = x :: remove_first a l.
Proof.
  intros Hne. unfold remove_first. cbn.
  destruct (decide (x = a)); [contradiction|].
  destruct (Property.index_of a l); reflexivity.
Qed.

Lemma remove_first_cons_eq a l : remove_first a (a :: l) = l.
Proof. unfold remove_first. cbn. destruct (decide (a = a)); [reflexivity | contradiction]. Qed.

Lemma remove_first_notin a l : a ∉ l -> remove_first a l = l.
Proof. intros H. unfold remove_first. apply index_of_None in H. now rewrite H. Qed.

Lemma takeChildAt_in_range st (i : nat) a o :
  root_property_ st !! i = Some a ->
  heap st !! a = Some o ->
  Property.takeChildAt (Z.of_nat i) st =
    Ok (Some a) (set_heap (<[a := setParent false o]> (heap st))
                   (set_children (delete i (root_property_ st)) st)).
Proof.
  intros Hi Ha. unfold Property.takeChildAt, Property.numChildren. munfold.
  pose proof (lookup_lt_Some _ _ _ Hi) as Hlt.
  destruct (Z.ltb_spec (Z.of_nat i) 0); [lia|].
  destruct (Z.leb_spec (Z.of_nat (length (root_property_ st))) (Z.of_nat i)); [lia|].
  cbn. rewrite Nat2Z.id, Hi. unfold update_obj. cbn. rewrite Ha. reflexivity.
Qed.

Lemma takeChildAt_out_of_range st index :
  (index < 0 \/ Property.numChildren st <= index)%Z ->
  Property.takeChildAt index st = Ok None st.
Proof.
  intros H. unfold Property.takeChildAt. munfold.
  destruct (Z.ltb_spec index 0); [reflexivity|].
  destruct (Z.leb_spec (Property.numChildren st) index); [reflexivity | lia].
Qed.

Lemma takeChild_live st p po :
  heap st !! p = Some po ->
  Property.takeChild p st =
    match Property.index_of p (root_property_ st) with
    | Some i => Ok (Some p) (set_heap (<[p := setParent false po]> (heap st))
                              (set_children (delete i (root_property_ st)) st))
    | None => Ok None st
    end.
Proof.
  intros Hp. unfold Property.takeChild. munfold.
  destruct (Property.index_of p (root_property_ st)) as [i|] eqn:E; [|reflexivity].
  apply index_of_Some in E as [E _]. now apply takeChildAt_in_range.
Qed.

Lemma foreach_onCurrentDestroyed (l : list addr) p st :
  foreach l (fun _ => onCurrentDestroyed (Some p)) st =
    Ok tt (if decide (Some p = current_ st /\ l <> []) then set_current None st else st).
Proof.
  revert st. induction l as [|x l IH]; intros st; cbn.
  - unfold ret. destruct (decide _) as [[_ H]|_]; [contradiction | reflexivity].
  - unfold bind, onCurrentDestroyed.
    destruct (decide (Some p = current_ st)) as [Hc|Hc].
    + rewrite IH. cbn.
      destruct (decide (Some p = None /\ l <> [])) as [[H _]|_]; [discriminate|].
      destruct (decide (Some p = current_ st /\ x :: l <> [])) as [_|H]; [reflexivity|].
      exfalso. apply H. split; [assumption | discriminate].
    + rewrite IH.
      destruct (decide (Some p = current_ st /\ l <> [])) as [[H _]|_]; [contradiction|].
      destruct (decide (Some p = current_ st /\ x :: l <> [])) as [[H _]|_]; [contradiction|].
      reflexivity.
Qed.

Lemma filter_eq_nonempty (p : addr) (l : list addr) :
  filter (fun x => x = p) l <> [] <-> p ∈ l.
Proof.
  induction l as [|x l IH].
  - cbn. split; [congruence | intros H; inversion H].
  - rewrite filter_cons. destruct (decide (x = p)) as [->|Hne].
    + split; [intros _; left | discriminate].
    + rewrite IH, elem_of_cons. split; [tauto | intros [->|H]; [contradiction | assumption]].
Qed.

Lemma destroy_live st p po :
  heap st !! p = Some po ->
  Property.destroy (Some p) st = Ok tt (after_destroy p po st).
Proof.
  intros Hp. unfold Property.destroy.
  rewrite (bind_Ok _ _ _ _ _ (deref_live _ _ _ Hp)).
  erewrite bind_Ok by reflexivity.
  assert (Hfin : forall st1 : State,
    trace st1 = trace st ++ [Delete p] ->
    context_ st1 = context_ st -> factory_ st1 = factory_ st ->
    current_ st1 = current_ st -> render_panel_ st1 = render_panel_ st ->
    connections st1 = connections st ->
    delete p (heap st1) = delete p (heap st) ->
    root_property_ st1 =
      (if parent_ po then remove_first p (root_property_ st) else root_property_ st) ->
    (st2 <- get ;;
     foreach (filter (fun x => x = p) (connections st2))
             (fun _ => onCurrentDestroyed (Some p)) ;;;
     modify (fun st => set_connections (filter (fun x => x <> p) (connections st)) st) ;;;
     modify (fun st => set_heap (delete p (heap st)) st)) st1
    = Ok tt (after_destroy p po st)).
  { intros st1 Htr Hctx Hfac Hcur Hrp Hconn Hheap Hroot.
    erewrite bind_Ok by reflexivity.
    erewrite bind_Ok by apply foreach_onCurrentDestroyed.
    unfold after_destroy. rewrite <- Htr, <- Hctx, <- Hfac, <- Hcur, <- Hrp, <- Hconn,
      <- Hheap, <- Hroot.
    destruct (decide (Some p = current_ st1 /\ filter (fun x => x = p) (connections st1) <> []))
      as [[H1 H2]|H];
    destruct (decide (Some p = current_ st1 /\ p ∈ connections st1)) as [[H3 H4]|H'];
      try reflexivity.
    - exfalso. apply H'. split; [assumption | now apply filter_eq_nonempty].
    - exfalso. apply H. split; [assumption | now apply filter_eq_nonempty]. }
  destruct (parent_ po) eqn:Hpar.
  - assert (Hp' : heap (log (Delete p) st) !! p = Some po) by exact Hp.
    pose proof (takeChild_live _ _ _ Hp') as Htake.
    unfold remove_first in Hfin.
    change (root_property_ (log (Delete p) st)) with (root_property_ st) in Htake.
    destruct (Property.index_of p (root_property_ st)) as [i|].
    + rewrite (bind_Ok _ _ _ _ _ Htake). apply Hfin; try reflexivity.
      cbn. apply delete_insert_eq.
    + rewrite (bind_Ok _ _ _ _ _ Htake). apply Hfin; reflexivity.
  - erewrite bind_Ok by reflexivity. apply Hfin; reflexivity.
Qed.

(** ** Inserting into the tree *)

Lemma addChild_live st a o index :
  heap st !! a = Some o ->
  Property.addChild (Some a) index st =
    Ok tt (set_heap (<[a := setParent true o]> (heap st))
             (set_children
                (Property.insert_at
                   (Z.to_nat (if ((index <? 0) || (Property.numChildren st <? index))%Z
                              then Property.numChildren st else index))
                   a (root_property_ st)) st)).
Proof.
  intros Ha. unfold Property.addChild.
  erewrite bind_Ok by reflexivity.
  erewrite bind_Ok by reflexivity.
  now rewrite (update_obj_live _ _ o).
Qed.

Lemma addChildToFront_live st a o :
  heap st !! a = Some o ->
  NodeControllerContainer.addChildToFront (Some a) st =
    Ok tt (set_heap (<[a := setParent true o]> (heap st))
             (set_children (a :: root_property_ st) st)).
Proof.
  intros Ha. unfold NodeControllerContainer.addChildToFront.
  rewrite (addChild_live _ _ _ _ Ha).
  destruct (Z.ltb_spec (Property.numChildren st) 0) as [H|H].
  - pose proof (numChildren_nonneg st). lia.
  - reflexivity.
Qed.

(** ** Installing a current controller *)

Lemma setCurrent_no_previous st n on mimic_view :
  current_ st = None ->
  heap st !! n = Some on ->
  NodeManager.setCurrent (Some n) mimic_view st =
    Ok tt (mkState (context_ st) (factory_ st) (Some n) (render_panel_ st)
             (n :: root_property_ st)
             (<[n := setParent true (setName "Current View" on)]> (heap st))
             (n :: connections st)
             (trace st ++ [Connect n; EmitCurrentChanged])).
Proof.
  destruct st as [ctx fac cur rp l h conns tr]. norm.
  intros -> Hn. unfold NodeManager.setCurrent.
  erewrite bind_Ok by reflexivity. norm.
  erewrite bind_Ok by reflexivity.
  erewrite bind_Ok by (apply update_obj_live; eassumption). norm.
  erewrite bind_Ok by reflexivity. norm.
  erewrite bind_Ok by reflexivity. norm.
  erewrite bind_Ok by (apply addChildToFront_live; norm; apply lookup_insert_eq). norm.
  erewrite bind_Ok by reflexivity.
  unfold modify. norm.
  rewrite insert_insert_eq, <- app_assoc. reflexivity.
Qed.

Lemma setCurrent_replaces st n on p po mimic_view :
  current_ st = Some p ->
  heap st !! n = Some on ->
  heap st !! p = Some po ->
  n <> p ->
  NodeManager.setCurrent (Some n) mimic_view st =
    Ok tt (mkState (context_ st) (factory_ st) (Some n) (render_panel_ st)
             (n :: (if parent_ po then remove_first p (root_property_ st)
                    else root_property_ st))
             (delete p (<[n := setParent true (setName "Current View" on)]> (heap st)))
             (n :: filter (fun x => x <> p) (connections st))
             (trace st ++ [(if mimic_view then CallMimic n p else CallTransitionFrom n p);
                           Disconnect p; Connect n; Delete p; EmitCurrentChanged])).
Proof.
  destruct st as [ctx fac cur rp l h conns tr]. norm.
  intros -> Hn Hp Hne. unfold NodeManager.setCurrent.
  erewrite bind_Ok by reflexivity. norm.
  set (st := mkState ctx fac (Some p) rp l h conns tr).
  assert (Hhook :
    (if mimic_view then NodeManager.mimic n p else NodeManager.transitionFrom n p) st
    = Ok tt (log (if mimic_view then CallMimic n p else CallTransitionFrom n p) st)).
  { destruct mimic_view; unfold NodeManager.mimic, NodeManager.transitionFrom;
      rewrite (bind_Ok _ _ _ _ _ (deref_live st _ _ Hn));
      rewrite (bind_Ok _ _ _ _ _ (deref_live st _ _ Hp)); reflexivity. }
  erewrite bind_Ok; cycle 1.
  { rewrite (bind_Ok _ _ _ _ _ Hhook). reflexivity. }
  subst st. norm.
  erewrite bind_Ok by (apply update_obj_live; exact Hn). norm.
  erewrite bind_Ok by reflexivity. norm.
  erewrite bind_Ok by reflexivity. norm.
  erewrite bind_Ok by (apply addChildToFront_live; norm; apply lookup_insert_eq). norm.
  erewrite bind_Ok; cycle 1.
  { apply (destroy_live _ _ po). norm.
    rewrite !lookup_insert_ne by congruence. exact Hp. }
  unfold modify. norm.
  rewrite insert_insert_eq.
  rewrite remove_first_cons_ne by assumption.
  rewrite filter_cons. destruct (decide (n <> p)) as [_|H]; [|contradiction].
  rewrite list_filter_filter.
  destruct (decide (Some p = Some n /\ _)) as [[H _]|_]; [congruence|].
  f_equal. f_equal.
  - now destruct (parent_ po).
  - f_equal. apply list_filter_iff. tauto.
  - rewrite <- !app_assoc; reflexivity.
Qed.

(** C2 as stated fails when the new controller is the current one: the
    manager has just connected [onCurrentDestroyed] to it when it deletes it
    as "previous", so [getCurrent()] ends up [NULL] and the object is gone. *)
Lemma setCurrent_of_the_current_controller_loses_it :
  current_ Fixture.initialized = Some 1%positive
  /\ is_Some (heap Fixture.initialized !! 1%positive)
  /\ exists st',
       NodeManager.setCurrent (Some 1%positive) false Fixture.initialized = Ok tt st'
       /\ NodeManager.getCurrent st' = Ok None st'
       /\ current_ st' <> Some 1%positive
       /\ heap st' !! 1%positive = None.
Proof.
  split; [reflexivity|]. split; [vm_compute; eauto|].
  eexists. split; [vm_compute; reflexivity|].
  split; [reflexivity|]. split; [discriminate | reflexivity].
Qed.

(** C2, amended: for a live new controller other than the current one (the
    previous current, if any, being live), [setCurrent(new, mimic)] returns;
    afterwards [getCurrent()] is [new], [new] is named "Current View", sits in
    slot 0 of the tree and has its [destroyed] signal connected; when there
    was a previous current, the trace grew by [transitionFrom(previous)]
    ([mimic(previous)] exactly when the flag is true), the disconnection of
    the previous, the connection of the new, the deletion of the previous and
    [currentChanged], and the previous is neither live nor connected; when
    there was none, the trace grew by the connection and [currentChanged]. *)
Theorem setCurrent_installs_new
    (st : State) (n : addr) (on : NodeController) (mimic_view : bool) :
  heap st !! n = Some on ->
  (forall p, current_ st = Some p -> p <> n /\ is_Some (heap st !! p)) ->
  exists st',
    NodeManager.setCurrent (Some n) mimic_view st = Ok tt st'
    /\ NodeManager.getCurrent st' = Ok (Some n) st'
    /\ name_ <$> heap st' !! n = Some "Current View"
    /\ root_property_ st' !! 0%nat = Some n
    /\ n ∈ connections st'
    /\ match current_ st with
       | Some p =>
           trace st' = trace st ++
             [(if mimic_view then CallMimic n p else CallTransitionFrom n p);
              Disconnect p; Connect n; Delete p; EmitCurrentChanged]
           /\ heap st' !! p = None
           /\ p ∉ connections st'
       | None =>
           trace st' = trace st ++ [Connect n; EmitCurrentChanged]
           /\ root_property_ st' = n :: root_property_ st
       end.
Proof.
  intros Hn Hprev.
  destruct (current_ st) as [p|] eqn:Hcur.
  - destruct (Hprev p eq_refl) as [Hne [po Hp]].
    eexists. split; [apply (setCurrent_replaces _ _ _ _ _ _ Hcur Hn Hp); congruence|].
    cbn. split; [reflexivity|]. split.
    { rewrite lookup_delete_ne by congruence. now rewrite lookup_insert_eq. }
    split; [reflexivity|]. split; [left|].
    split; [reflexivity|]. split; [apply lookup_delete_eq|].
    rewrite not_elem_of_cons. split; [assumption|].
    rewrite list_elem_of_filter. tauto.
  - eexists. split; [apply (setCurrent_no_previous _ _ _ _ Hcur Hn)|].
    cbn. split; [reflexivity|]. split; [now rewrite lookup_insert_eq|].
    split; [reflexivity|]. split; [left|]. split; reflexivity.
Qed.

Lemma setCurrent_installs_new_witness :
  exists st',
    NodeManager.setCurrent (Some 4%positive) false Fixture.with_candidate = Ok tt st'
    /\ NodeManager.getCurrent st' = Ok (Some 4%positive) st'
    /\ heap st' !! 1%positive = None.
Proof.
  destruct (setCurrent_installs_new Fixture.with_candidate 4%positive _ false eq_refl)
    as (st' & H1 & H2 & _ & _ & _ & _ & H3 & _).
  - intros p Hp. vm_compute in Hp. inversion Hp; subst.
    split; [discriminate | vm_compute; eauto].
  - exists st'. split; [exact H1 | split; [exact H2 | exact H3]].
Defined.

(** ** Adding a saved view *)

Lemma insert_at_length (a : addr) (l : list addr) :
  Property.insert_at (length l) a l = l ++ [a].
Proof.
  unfold Property.insert_at. now rewrite firstn_all, skipn_all.
Qed.

Lemma insert_at_lookup (k : nat) (a : addr) (l : list addr) :
  (k <= length l)%nat -> Property.insert_at k a l !! k = Some a.
Proof.
  intros Hk. unfold Property.insert_at.
  rewrite lookup_app_r by (rewrite length_take; lia).
  rewrite length_take. replace (k - k `min` length l)%nat with 0%nat by lia.
  reflexivity.
Qed.

Lemma wrap_int_max : wrap_int (2 ^ 31 - 1 + 1) = (- 2 ^ 31)%Z.
Proof. reflexivity. Qed.

Lemma add_live st v o index :
  heap st !! v = Some o ->
  (index < 2 ^ 31)%Z ->
  (Property.numChildren st < 2 ^ 31)%Z ->
  NodeManager.add (Some v) index st =
    Ok tt (set_heap (<[v := setParent true o]> (heap st))
             (set_children
                (Property.insert_at
                   (if decide (0 <= index < Property.numChildren st)%Z
                    then Z.to_nat (index + 1) else length (root_property_ st))
                   v (root_property_ st)) st)).
Proof.
  intros Hv Hint Hnum. unfold NodeManager.add, NodeControllerContainer.addChild.
  erewrite bind_Ok by reflexivity.
  rewrite (addChild_live _ _ _ _ Hv). do 3 f_equal.
  unfold Property.numChildren in *.
  set (n := Z.of_nat (length (root_property_ st))) in *.
  assert (Hn : (0 <= n)%Z) by (subst n; lia).
  assert (Hlen : length (root_property_ st) = Z.to_nat n) by (subst n; lia).
  rewrite Hlen. clearbody n.
  destruct (Z.ltb_spec index 0) as [Hneg|Hnn].
  - destruct (decide (0 <= index < n)%Z); [lia|].
    destruct (Z.eqb_spec n 0) as [->|Hn0]; [reflexivity|].
    destruct (Z.ltb_spec n 0); [lia|].
    destruct (Z.ltb_spec n n); [lia|]. reflexivity.
  - destruct (Z.eq_dec index (2 ^ 31 - 1)) as [->|Hmax].
    + destruct (decide (0 <= 2 ^ 31 - 1 < n)%Z) as [H|H]; [lia|].
      rewrite wrap_int_max. reflexivity.
    + rewrite wrap_int_small by lia.
      destruct (Z.eqb_spec (index + 1) 0); [lia|].
      destruct (Z.ltb_spec (index + 1) 0); [lia|].
      destruct (Z.ltb_spec n (index + 1)); destruct (decide (0 <= index < n)%Z);
        simpl orb; cbv iota; first [reflexivity | lia | f_equal; lia].
Qed.

(** C6 as stated fails on a tree that already has saved views: a negative
    index puts the view after the last child, which is neither tree slot 1
    nor a rejection; and a non-negative index past the end does not put the
    view at tree slot index+1. *)
Lemma add_negative_index_appends_after_last :
  root_property_ Fixture.with_candidate = [1; 2; 3]%positive
  /\ is_Some (heap Fixture.with_candidate !! 4%positive)
  /\ (exists st',
        NodeManager.add (Some 4%positive) (-1) Fixture.with_candidate = Ok tt st'
        /\ root_property_ st' = [1; 2; 3; 4]%positive
        /\ root_property_ st' !! 1%nat <> Some 4%positive
        /\ root_property_ st' <> root_property_ Fixture.with_candidate)
  /\ (exists st',
        NodeManager.add (Some 4%positive) 7 Fixture.with_candidate = Ok tt st'
        /\ root_property_ st' = [1; 2; 3; 4]%positive
        /\ root_property_ st' !! 8%nat <> Some 4%positive).
Proof.
  split; [reflexivity|]. split; [vm_compute; eauto|]. split.
  - eexists. split; [vm_compute; reflexivity|].
    split; [reflexivity|]. split; discriminate.
  - eexists. split; [vm_compute; reflexivity|].
    split; [reflexivity | discriminate].
Qed.

(** C6, amended: [add(view, index)] of a live controller returns and marks
    the view as a child of the root.  With a negative index the view goes
    after the last child (tree slot [numChildren]); with an index from 0 to
    [numChildren - 1] it goes to tree slot index+1, so never to slot 0; with
    a larger index it goes after the last child.  A [NULL] view is rejected
    and the state stays as it is. *)
Theorem add_places_view
    (st : State) (v : addr) (o : NodeController) (index : Z) :
  heap st !! v = Some o ->
  (index < 2 ^ 31)%Z ->
  (Property.numChildren st < 2 ^ 31)%Z ->
  exists k,
    NodeManager.add (Some v) index st =
      Ok tt (set_heap (<[v := setParent true o]> (heap st))
               (set_children (Property.insert_at k v (root_property_ st)) st))
    /\ Property.insert_at k v (root_property_ st) !! k = Some v
    /\ ((index < 0)%Z ->
          k = length (root_property_ st)
          /\ Property.insert_at k v (root_property_ st) = root_property_ st ++ [v])
    /\ ((0 <= index < Property.numChildren st)%Z -> k = Z.to_nat (index + 1))
    /\ ((Property.numChildren st <= index)%Z ->
          k = length (root_property_ st)
          /\ Property.insert_at k v (root_property_ st) = root_property_ st ++ [v])
    /\ NodeManager.add None index st = Ok tt st.
Proof.
  intros Hv Hint Hnum. eexists. split; [apply (add_live _ _ _ _ Hv Hint Hnum)|].
  unfold Property.numChildren.
  destruct (decide (0 <= index < Z.of_nat (length (root_property_ st)))%Z) as [Hin|Hout].
  - split; [apply insert_at_lookup; lia|].
    split; [lia|]. split; [reflexivity|]. split; [lia | reflexivity].
  - split; [apply insert_at_lookup; lia|].
    split; [intros _; split; [reflexivity | apply insert_at_length]|].
    split; [lia|].
    split; [intros _; split; [reflexivity | apply insert_at_length] | reflexivity].
Qed.

Lemma add_places_view_witness :
  exists st',
    NodeManager.add (Some 4%positive) 0 Fixture.with_candidate = Ok tt st'
    /\ root_property_ st' = [1; 4; 2; 3]%positive.
Proof.
  destruct (add_places_view Fixture.with_candidate 4%positive _ 0 eq_refl)
    as (k & H1 & _ & _ & H2 & _); [lia | vm_compute; reflexivity |].
  rewrite H2 in H1 by (vm_compute; split; discriminate || reflexivity).
  eexists. split; [exact H1 | reflexivity].
Defined.

(** ** Saving the manager *)

Lemma getNumViews_length st :
  NodeManager.getNumViews st = Z.of_nat (length (skipn 1 (root_property_ st))).
Proof.
  unfold NodeManager.getNumViews, Property.numChildren.
  destruct (root_property_ st) as [|c saved].
  - reflexivity.
  - change (skipn 1 (c :: saved)) with saved. cbn [length].
    destruct (Z.leb_spec (Z.of_nat (S (length saved))) 0); lia.
Qed.

Lemma getViewAt_nat (k : nat) st :
  (Z.of_nat k + 1 < 2 ^ 31)%Z ->
  NodeManager.getViewAt (Z.of_nat k) st = root_property_ st !! S k.
Proof.
  intros Hk. unfold NodeManager.getViewAt.
  destruct (Z.ltb_spec (Z.of_nat k) 0); [lia|].
  rewrite wrap_int_small by lia.
  replace (Z.of_nat k + 1)%Z with (Z.of_nat (S k)) by lia.
  apply childAt_lookup.
Qed.

Lemma drop_cons_inv {A} (l : list A) i x r :
  skipn i l = x :: r -> l !! i = Some x /\ skipn (S i) l = r.
Proof.
  revert i. induction l as [|y l IH]; intros i H.
  - rewrite skipn_nil in H. discriminate.
  - destruct i as [|i]; cbn in *.
    + inversion H. auto.
    + now apply IH.
Qed.

Lemma live_objects (h : gmap addr NodeController) (l : list addr) :
  (forall a, a ∈ l -> is_Some (h !! a)) ->
  exists objs, Forall2 (fun a o => h !! a = Some o) l objs.
Proof.
  induction l as [|a l IH]; intros H.
  - exists []. constructor.
  - destruct (H a) as [o Ho]; [left|].
    destruct IH as [objs Hobjs]; [intros b Hb; apply H; now right|].
    exists (o :: objs). now constructor.
Qed.

Lemma save_views_spec objs : forall (k : nat) acc st,
  Forall2 (fun a o => heap st !! a = Some o) (skipn (S k) (root_property_ st)) objs ->
  (Property.numChildren st < 2 ^ 31)%Z ->
  NodeManager.save_views (length objs) (Z.of_nat k) acc st =
    Ok (fold_left (fun acc o => Cfg.listAppend (NodeController_save o Empty) acc) objs acc)
       st.
Proof.
  induction objs as [|o objs IH]; intros k acc st Hall Hnum; [reflexivity|].
  inversion Hall as [|a o' rest objs' Ha Hrest Heq]; subst.
  symmetry in Heq. apply drop_cons_inv in Heq as [Hk Hdrop].
  pose proof (lookup_lt_Some _ _ _ Hk) as Hlt.
  unfold Property.numChildren in Hnum.
  cbn [NodeManager.save_views length fold_left].
  erewrite bind_Ok by reflexivity.
  assert (Hviews : (Z.of_nat k <? NodeManager.getNumViews st)%Z = true).
  { apply Z.ltb_lt. unfold NodeManager.getNumViews, Property.numChildren.
    destruct (Z.leb_spec (Z.of_nat (length (root_property_ st))) 0); lia. }
  rewrite Hviews, getViewAt_nat, Hk by lia.
  rewrite (bind_Ok _ _ _ _ _ (deref_live _ _ _ Ha)).
  rewrite wrap_int_small by lia.
  replace (Z.of_nat k + 1)%Z with (Z.of_nat (S k)) by lia.
  apply IH; [now rewrite Hdrop | assumption].
Qed.

Lemma save_spec st c co objs config :
  current_ st = Some c ->
  heap st !! c = Some co ->
  Forall2 (fun a o => heap st !! a = Some o) (skipn 1 (root_property_ st)) objs ->
  (Property.numChildren st < 2 ^ 31)%Z ->
  NodeManager.save config st = Ok (saved_config co objs config) st.
Proof.
  intros Hcur Hc Hall Hnum. unfold NodeManager.save.
  erewrite bind_Ok by reflexivity. rewrite Hcur.
  rewrite (bind_Ok _ _ _ _ _ (deref_live _ _ _ Hc)).
  erewrite bind_Ok by reflexivity.
  rewrite getNumViews_length, Nat2Z.id, (Forall2_length _ _ _ Hall).
  erewrite bind_Ok by (apply (save_views_spec objs 0); assumption).
  reflexivity.
Qed.

Lemma save_without_current st config :
  current_ st = None -> NodeManager.save config st = Crash NullDereference.
Proof.
  intros Hcur. unfold NodeManager.save.
  erewrite bind_Ok by reflexivity. now rewrite Hcur.
Qed.

(** C10: [save] dereferences [getCurrent()] unchecked.  Without a current
    controller it stops on a null dereference; with a live current
    controller and live saved views it returns the config.  A state without
    a current controller is reachable from a state that has one: deleting
    the current controller from outside runs [onCurrentDestroyed], which
    sets the pointer to [NULL], and [save] then faults. *)
Theorem save_needs_a_current_controller :
  (forall st config,
     current_ st = None -> NodeManager.save config st = Crash NullDereference)
  /\ (forall st config c,
        current_ st = Some c -> is_Some (heap st !! c) -> children_live st ->
        (Property.numChildren st < 2 ^ 31)%Z ->
        exists cfg, NodeManager.save config st = Ok cfg st)
  /\ (exists st c st',
        reachable st /\ current_ st = Some c
        /\ (exists cfg, NodeManager.save Empty st = Ok cfg st)
        /\ perform (DoDelete c) st = Ok tt st'
        /\ reachable st' /\ current_ st' = None
        /\ forall config, NodeManager.save config st' = Crash NullDereference).
Proof.
  split; [intros st config; apply save_without_current|]. split.
  - intros st config c Hcur [co Hc] Hlive Hnum.
    destruct (live_objects (heap st) (skipn 1 (root_property_ st))) as [objs Hobjs].
    { intros a Ha. apply Hlive. destruct (root_property_ st); [assumption | now right]. }
    eexists. now apply (save_spec _ _ _ _ _ Hcur Hc Hobjs).
  - assert (Hr : reachable Fixture.with_two_saved).
    { apply (reachable_step Fixture.with_one_saved DoCopyCurrentToList);
        [|vm_compute; reflexivity].
      apply (reachable_step Fixture.initialized DoCopyCurrentToList);
        [|vm_compute; reflexivity].
      apply (reachable_step Fixture.fresh_manager DoInitialize);
        [apply reachable_new | vm_compute; reflexivity]. }
    exists Fixture.with_two_saved, 1%positive, Fixture.current_deleted.
    split; [exact Hr|]. split; [reflexivity|].
    split; [eexists; vm_compute; reflexivity|].
    assert (Hdel : perform (DoDelete 1%positive) Fixture.with_two_saved
                   = Ok tt Fixture.current_deleted) by (vm_compute; reflexivity).
    split; [exact Hdel|].
    split; [exact (reachable_step _ _ _ Hr Hdel)|].
    split; [reflexivity|]. intros config. now apply save_without_current.
Qed.

(** ** The tree stays well formed *)

Lemma well_formed_alloc st a o :
  well_formed st -> heap st !! a = None ->
  well_formed (set_heap (<[a := o]> (heap st)) st).
Proof.
  intros (Hnd & Hown & Hcur) Ha. split; [exact Hnd|]. split.
  - intros b Hb. destruct (Hown b Hb) as (ob & Hob & Hpar).
    exists ob. split; [|exact Hpar]. cbn.
    rewrite lookup_insert_ne; [exact Hob | congruence].
  - intros c Hc. destruct (Hcur c Hc) as [oc Hoc]. cbn.
    exists oc. rewrite lookup_insert_ne; [exact Hoc | congruence].
Qed.

Lemma well_formed_update st a o o' :
  well_formed st -> heap st !! a = Some o -> parent_ o' = parent_ o ->
  well_formed (set_heap (<[a := o']> (heap st)) st).
Proof.
  intros (Hnd & Hown & Hcur) Ha Hpar. split; [exact Hnd|]. split.
  - intros b Hb. destruct (Hown b Hb) as (ob & Hob & Hparb). cbn.
    destruct (decide (a = b)) as [->|Hne].
    + exists o'. rewrite lookup_insert_eq. split; [reflexivity|]. congruence.
    + exists ob. now rewrite lookup_insert_ne.
  - intros c Hc. destruct (Hcur c Hc) as [oc Hoc]. cbn.
    destruct (decide (a = c)) as [->|Hne].
    + rewrite lookup_insert_eq. eauto.
    + rewrite lookup_insert_ne by assumption. eauto.
Qed.

Lemma insert_at_elem (k : nat) (a b : addr) (l : list addr) :
  b ∈ Property.insert_at k a l <-> b = a \/ b ∈ l.
Proof.
  unfold Property.insert_at.
  rewrite elem_of_app, elem_of_cons.
  assert (H : b ∈ l <-> b ∈ firstn k l \/ b ∈ skipn k l).
  { rewrite <- elem_of_app. now rewrite take_drop. }
  tauto.
Qed.

Lemma insert_at_NoDup (k : nat) (a : addr) (l : list addr) :
  NoDup l -> a ∉ l -> NoDup (Property.insert_at k a l).
Proof.
  intros Hnd Ha. unfold Property.insert_at.
  rewrite <- (take_drop k l) in Hnd, Ha.
  apply NoDup_app in Hnd as (H1 & H2 & H3).
  rewrite elem_of_app in Ha.
  apply NoDup_app. split; [exact H1|]. split.
  - intros x Hx Hx'. apply elem_of_cons in Hx' as [->|Hx']; [tauto|].
    now apply (H2 x).
  - apply NoDup_cons. tauto.
Qed.

Lemma well_formed_insert st a o k :
  well_formed st -> heap st !! a = Some o -> a ∉ root_property_ st ->
  well_formed (set_heap (<[a := setParent true o]> (heap st))
                 (set_children (Property.insert_at k a (root_property_ st)) st)).
Proof.
  intros (Hnd & Hown & Hcur) Ha Hnotin. split; [|split].
  - cbn. now apply insert_at_NoDup.
  - intros b Hb. cbn in Hb |- *. apply insert_at_elem in Hb as [->|Hb].
    + exists (setParent true o). now rewrite lookup_insert_eq.
    + destruct (Hown b Hb) as (ob & Hob & Hpar). exists ob.
      rewrite lookup_insert_ne; [auto | congruence].
  - intros c Hc. destruct (Hcur c Hc) as [oc Hoc]. cbn.
    destruct (decide (a = c)) as [->|Hne].
    + rewrite lookup_insert_eq. eauto.
    + rewrite lookup_insert_ne by assumption. eauto.
Qed.

Lemma delete_elem (i : nat) (b : addr) (l : list addr) :
  b ∈ delete i l -> b ∈ l.
Proof.
  apply list_elem_of_delete_inv.
Qed.

Lemma delete_NoDup_notin (i : nat) (a : addr) (l : list addr) :
  NoDup l -> l !! i = Some a -> NoDup (delete i l) /\ a ∉ delete i l.
Proof.
  revert i. induction l as [|x l IH]; intros i Hnd Hi; [discriminate|].
  apply NoDup_cons in Hnd as [Hx Hnd].
  destruct i as [|i]; cbn in *.
  - inversion Hi; subst. auto.
  - destruct (IH i Hnd Hi) as [H1 H2]. split.
    + apply NoDup_cons. split; [|exact H1].
      intros Hin. apply Hx. eapply delete_elem. exact Hin.
    + rewrite not_elem_of_cons. split; [|exact H2].
      intros ->. apply Hx. eapply list_elem_of_lookup_2. exact Hi.
Qed.

Lemma well_formed_take st i a o :
  well_formed st -> root_property_ st !! i = Some a -> heap st !! a = Some o ->
  well_formed (set_heap (<[a := setParent false o]> (heap st))
                 (set_children (delete i (root_property_ st)) st)).
Proof.
  intros (Hnd & Hown & Hcur) Hi Ha.
  destruct (delete_NoDup_notin _ _ _ Hnd Hi) as [Hnd' Hnotin].
  split; [exact Hnd'|]. split.
  - intros b Hb. cbn in Hb |- *.
    destruct (Hown b (delete_elem _ _ _ Hb)) as (ob & Hob & Hpar). exists ob.
    rewrite lookup_insert_ne; [auto | congruence].
  - intros c Hc. destruct (Hcur c Hc) as [oc Hoc]. cbn.
    destruct (decide (a = c)) as [->|Hne].
    + rewrite lookup_insert_eq. eauto.
    + rewrite lookup_insert_ne by assumption. eauto.
Qed.

Lemma remove_first_elem (p b : addr) (l : list addr) :
  b ∈ remove_first p l -> b ∈ l.
Proof.
  unfold remove_first. destruct (Property.index_of p l); [apply delete_elem | auto].
Qed.

Lemma remove_first_NoDup (p : addr) (l : list addr) :
  NoDup l -> NoDup (remove_first p l) /\ p ∉ remove_first p l.
Proof.
  intros Hnd. unfold remove_first.
  destruct (Property.index_of p l) as [i|] eqn:E.
  - apply index_of_Some in E as [E _]. now apply delete_NoDup_notin.
  - split; [exact Hnd | now apply index_of_None].
Qed.

(** What is left of the tree after [delete p]: [p] is in no slot. *)
Lemma after_destroy_children st p po :
  well_formed st -> heap st !! p = Some po ->
  let l' := if parent_ po then remove_first p (root_property_ st) else root_property_ st in
  NoDup l' /\ (p ∉ l') /\ forall b, b ∈ l' -> b ∈ root_property_ st.
Proof.
  intros (Hnd & Hown & _) Hp. cbn. destruct (parent_ po) eqn:Hpar.
  - destruct (remove_first_NoDup p _ Hnd) as [H1 H2].
    split; [exact H1|]. split; [exact H2|]. intros b. apply remove_first_elem.
  - split; [exact Hnd|]. split; [|auto].
    intros Hin. destruct (Hown p Hin) as (po' & Hpo' & Hpar'). congruence.
Qed.

Lemma well_formed_destroy st p po :
  well_formed st -> heap st !! p = Some po -> current_ st <> Some p ->
  well_formed (after_destroy p po st).
Proof.
  intros Hwf Hp Hcurne.
  destruct (after_destroy_children st p po Hwf Hp) as (Hnd' & Hnotin & Hsub).
  destruct Hwf as (Hnd & Hown & Hcur).
  split; [exact Hnd'|]. split.
  - intros b Hb. cbn in Hb |- *.
    destruct (Hown b (Hsub b Hb)) as (ob & Hob & Hparb). exists ob.
    rewrite lookup_delete_ne; [auto | congruence].
  - intros c Hc. cbn in Hc |- *.
    destruct (decide (Some p = current_ st /\ p ∈ connections st)) as [[H _]|_];
      [discriminate|].
    destruct (Hcur c Hc) as [oc Hoc]. exists oc.
    rewrite lookup_delete_ne; [auto | congruence].
Qed.

(** ** The invariant under [setCurrent] *)

Lemma setCurrent_well_formed st n on mimic_view :
  well_formed st ->
  heap st !! n = Some on ->
  n ∉ root_property_ st ->
  current_ st <> Some n ->
  exists st',
    NodeManager.setCurrent (Some n) mimic_view st = Ok tt st'
    /\ manager_invariant st'
    /\ current_ st' = Some n
    /\ factory_ st' = factory_ st
    /\ context_ st' = context_ st
    /\ (forall b, b ∈ root_property_ st' -> b = n \/ b ∈ root_property_ st)
    /\ (forall b, heap st' !! b = None -> b <> n -> current_ st <> Some b ->
          heap st !! b = None)
    /\ (forall p, current_ st = Some p -> heap st' !! p = None /\ p ∉ root_property_ st').
Proof.
  intros Hwf Hn Hnotin Hcurne.
  pose proof Hwf as (Hnd & Hown & Hcur).
  destruct (current_ st) as [p|] eqn:Hc.
  - destruct (Hcur p eq_refl) as [po Hp].
    assert (Hne : n <> p) by congruence.
    destruct (after_destroy_children st p po Hwf Hp) as (Hnd' & Hpnotin & Hsub).
    cbn in Hnd', Hpnotin, Hsub.
    eexists. split; [apply (setCurrent_replaces _ _ _ _ _ _ Hc Hn Hp Hne)|].
    split; [split; [split; [|split]|]|].
    + cbn. apply NoDup_cons. split; [|exact Hnd'].
      intros Hin. apply Hnotin. now apply Hsub.
    + intros b Hb. cbn in Hb |- *. apply elem_of_cons in Hb as [->|Hb].
      * exists (setParent true (setName "Current View" on)).
        rewrite lookup_delete_ne by congruence. now rewrite lookup_insert_eq.
      * destruct (Hown b (Hsub b Hb)) as (ob & Hob & Hpar). exists ob.
        assert (Hbp : p <> b) by (intros ->; exact (Hpnotin Hb)).
        assert (Hbn : n <> b) by (intros ->; exact (Hnotin (Hsub _ Hb))).
        rewrite lookup_delete_ne by exact Hbp.
        rewrite lookup_insert_ne; [auto | exact Hbn].
    + intros c Hc'. cbn in Hc' |- *. inversion Hc'; subst.
      rewrite lookup_delete_ne by congruence. rewrite lookup_insert_eq. eauto.
    + exists n. split; reflexivity.
    + cbn. split; [reflexivity|]. split; [reflexivity|]. split; [reflexivity|].
      split; [|split].
      * intros b Hb. apply elem_of_cons in Hb as [->|Hb]; [now left | right; now apply Hsub].
      * intros b Hb Hbn Hbp.
        rewrite lookup_delete_ne in Hb by congruence.
        rewrite lookup_insert_ne in Hb by congruence. exact Hb.
      * intros p' Hp'. inversion Hp'; subst.
        split; [apply lookup_delete_eq|].
        rewrite not_elem_of_cons. split; [congruence | exact Hpnotin].
  - eexists. split; [apply (setCurrent_no_previous _ _ _ _ Hc Hn)|].
    split; [split; [split; [|split]|]|].
    + cbn. apply NoDup_cons. split; assumption.
    + intros b Hb. cbn in Hb |- *. apply elem_of_cons in Hb as [->|Hb].
      * exists (setParent true (setName "Current View" on)). now rewrite lookup_insert_eq.
      * destruct (Hown b Hb) as (ob & Hob & Hpar). exists ob.
        rewrite lookup_insert_ne; [auto | congruence].
    + intros c Hc'. cbn in Hc' |- *. inversion Hc'; subst.
      rewrite lookup_insert_eq. eauto.
    + exists n. split; reflexivity.
    + cbn. split; [reflexivity|]. split; [reflexivity|]. split; [reflexivity|].
      split; [|split].
      * intros b Hb. apply elem_of_cons in Hb as [->|Hb]; [now left | now right].
      * intros b Hb Hbn _. rewrite lookup_insert_ne in Hb by congruence. exact Hb.
      * intros p' Hp'. discriminate.
Qed.

(** ** What a returning call has done *)

Lemma deref_inv p st o st' :
  deref p st = Ok o st' -> exists a, p = Some a /\ heap st !! a = Some o /\ st' = st.
Proof.
  unfold deref. destruct p as [a|]; [|discriminate].
  destruct (heap st !! a) as [o'|] eqn:E; [|discriminate].
  intros H. inversion H; subst. eauto.
Qed.

Lemma update_obj_inv p f st u st' :
  update_obj p f st = Ok u st' ->
  exists a o, p = Some a /\ heap st !! a = Some o
    /\ st' = set_heap (<[a := f o]> (heap st)) st.
Proof.
  unfold update_obj. destruct p as [a|]; [|discriminate].
  destruct (heap st !! a) as [o'|] eqn:E; [|discriminate].
  intros H. inversion H; subst. eauto.
Qed.

Lemma create_inv class_id st v st' :
  NodeManager.create class_id st = Ok v st' ->
  exists a o, v = Some a /\ allocated st a o st' /\ class_id_ o = class_id
    /\ is_Some (Factory.find class_id (factory_ st)).
Proof.
  intros H. destruct (Factory.find class_id (factory_ st)) as [pc|] eqn:Hfind.
  - rewrite (create_Some _ _ _ Hfind) in H. inversion H; subst; clear H.
    exists (fresh (dom (heap st))),
      (NodeController_initialize (context_ st)
         (setClassId class_id (NodeController_new (pc_defaults pc)))).
    split; [reflexivity|]. split; [|split; [reflexivity | eauto]].
    split; [apply fresh_not_live|]. split; reflexivity.
  - rewrite (create_None _ _ Hfind) in H. discriminate.
Qed.

Lemma copy_inv source st v st' :
  NodeManager.copy source st = Ok v st' ->
  exists x src a o, source = Some x /\ heap st !! x = Some src
    /\ v = Some a /\ allocated st a o st'
    /\ class_id_ o = class_id_ src /\ tuning_ o = tuning_ src.
Proof.
  intros H. unfold NodeManager.copy in H.
  apply bind_inv in H as (src & st1 & Hd & H).
  apply deref_inv in Hd as (x & -> & Hx & ->).
  destruct (Factory.find (getClassId src) (factory_ st)) as [pc|] eqn:Hfind.
  - pose proof (copy_live _ _ _ _ Hx Hfind) as Hcopy. cbv zeta in Hcopy.
    unfold NodeManager.copy in Hcopy.
    rewrite (bind_Ok _ _ _ _ _ (deref_live _ _ _ Hx)) in Hcopy.
    rewrite Hcopy in H. inversion H; subst; clear H.
    match type of Hcopy with
    | _ = Ok _ (set_heap (<[_ := ?o]> _) _) => exists x, src, (fresh (dom (heap st))), o
    end.
    split; [reflexivity|]. split; [exact Hx|].
    split; [reflexivity|].
    split; [split; [apply fresh_not_live | split; [now rewrite load_save | reflexivity]]|].
    now rewrite load_save.
  - rewrite (bind_Crash _ _ _ _ (create_None _ _ Hfind)) in H. discriminate.
Qed.

Lemma allocated_well_formed st a o st' :
  allocated st a o st' -> well_formed st -> well_formed st'.
Proof. intros (Ha & _ & ->) Hwf. now apply well_formed_alloc. Qed.

Lemma allocated_invariant st a o st' :
  allocated st a o st' -> manager_invariant st -> manager_invariant st'.
Proof.
  intros Hal [Hwf Hslot]. split; [eapply allocated_well_formed; eauto|].
  destruct Hal as (_ & _ & ->). exact Hslot.
Qed.

Lemma allocated_fresh st a o st' :
  allocated st a o st' -> well_formed st ->
  heap st' !! a = Some o /\ (a ∉ root_property_ st') /\ current_ st' <> Some a.
Proof.
  intros (Ha & _ & ->) (_ & Hown & Hcur). cbn.
  split; [apply lookup_insert_eq|]. split.
  - intros Hin. destruct (Hown a Hin) as (oa & Hoa & _). congruence.
  - intros Hc. destruct (Hcur a Hc) as [oa Hoa]. congruence.
Qed.

(** Installing a controller that was just allocated. *)
Lemma setCurrent_allocated st a o st1 mimic_view :
  allocated st a o st1 -> well_formed st ->
  exists st',
    NodeManager.setCurrent (Some a) mimic_view st1 = Ok tt st'
    /\ manager_invariant st' /\ current_ st' = Some a
    /\ factory_ st' = factory_ st /\ context_ st' = context_ st.
Proof.
  intros Hal Hwf.
  destruct (allocated_fresh _ _ _ _ Hal Hwf) as (Ha & Hnotin & Hcur).
  destruct (setCurrent_well_formed st1 a o mimic_view
              (allocated_well_formed _ _ _ _ Hal Hwf) Ha Hnotin Hcur)
    as (st' & Hset & Hinv & Hc & Hfac & Hctx & _).
  exists st'. destruct Hal as (_ & _ & ->).
  repeat (split; [assumption|]). exact Hctx.
Qed.

(** ** The invariant under the tree operations *)

Lemma insert_at_slot0 (k : nat) (a : addr) (l : list addr) :
  (1 <= k)%nat -> l <> [] -> Property.insert_at k a l !! 0%nat = l !! 0%nat.
Proof.
  intros Hk Hl. destruct l as [|c rest]; [contradiction|].
  destruct k as [|k]; [lia | reflexivity].
Qed.

Lemma slot0_nonempty st : slot0_is_current st -> root_property_ st <> [].
Proof. intros (c & _ & H) E. rewrite E in H. discriminate. Qed.

Lemma invariant_insert st v o k :
  manager_invariant st -> heap st !! v = Some o -> v ∉ root_property_ st ->
  (1 <= k)%nat ->
  manager_invariant (set_heap (<[v := setParent true o]> (heap st))
                       (set_children (Property.insert_at k v (root_property_ st)) st)).
Proof.
  intros [Hwf Hslot] Hv Hnotin Hk. split; [now apply well_formed_insert|].
  destruct Hslot as (c & Hc & H0). exists c. split; [exact Hc|]. cbn.
  rewrite insert_at_slot0; [exact H0 | exact Hk |].
  intros E. rewrite E in H0. discriminate.
Qed.

Lemma invariant_update st a o o' :
  manager_invariant st -> heap st !! a = Some o -> parent_ o' = parent_ o ->
  manager_invariant (set_heap (<[a := o']> (heap st)) st).
Proof.
  intros [Hwf Hslot] Ha Hpar. split; [eapply well_formed_update; eauto | exact Hslot].
Qed.

Lemma invariant_take st i a o :
  manager_invariant st -> root_property_ st !! i = Some a -> (1 <= i)%nat ->
  heap st !! a = Some o ->
  manager_invariant (set_heap (<[a := setParent false o]> (heap st))
                       (set_children (delete i (root_property_ st)) st)).
Proof.
  intros [Hwf Hslot] Hi Hge Ha. split; [now apply well_formed_take|].
  destruct Hslot as (c & Hc & H0). exists c. split; [exact Hc|]. cbn.
  destruct (root_property_ st) as [|x rest]; [discriminate|].
  destruct i as [|i]; [lia | exact H0].
Qed.

Lemma invariant_destroy st p po :
  manager_invariant st -> heap st !! p = Some po -> current_ st <> Some p ->
  manager_invariant (after_destroy p po st).
Proof.
  intros [Hwf Hslot] Hp Hne. split; [now apply well_formed_destroy|].
  destruct Hslot as (c & Hc & H0). exists c. cbn. split.
  - destruct (decide (Some p = current_ st /\ p ∈ connections st)) as [[H _]|_];
      [congruence | exact Hc].
  - destruct (root_property_ st) as [|x rest]; [discriminate|].
    cbn in H0. inversion H0; subst.
    destruct (parent_ po); [|reflexivity].
    rewrite remove_first_cons_ne by congruence. reflexivity.
Qed.

Lemma addChild_inv v index st u st' :
  NodeControllerContainer.addChild (Some v) index st = Ok u st' ->
  exists o k,
    heap st !! v = Some o
    /\ st' = set_heap (<[v := setParent true o]> (heap st))
               (set_children (Property.insert_at k v (root_property_ st)) st)
    /\ (k <= length (root_property_ st))%nat
    /\ (root_property_ st <> [] -> (1 <= k)%nat).
Proof.
  unfold NodeControllerContainer.addChild. intros H.
  destruct (heap st !! v) as [o|] eqn:Hv.
  - rewrite (addChild_live _ _ _ _ Hv) in H. inversion H; subst; clear H.
    eexists o, _. split; [reflexivity|]. split; [reflexivity|].
    unfold Property.numChildren.
    set (n := Z.of_nat (length (root_property_ st))).
    assert (Hlen : length (root_property_ st) = Z.to_nat n) by (subst n; lia).
    assert (Hn : (0 <= n)%Z) by (subst n; lia).
    assert (Hne : root_property_ st <> [] -> (1 <= n)%Z).
    { subst n. destruct (root_property_ st); [congruence | cbn; lia]. }
    rewrite Hlen. clearbody n.
    destruct (Z.eqb_spec index 0) as [->|Hi0].
    + destruct (Z.ltb_spec n 1); cbn; split; intros; try lia.
      all: specialize (Hne ltac:(assumption)); lia.
    + destruct (Z.ltb_spec index 0); destruct (Z.ltb_spec n index);
        cbn; split; intros; try lia.
      all: specialize (Hne ltac:(assumption)); lia.
  - exfalso. unfold Property.addChild in H.
    erewrite bind_Ok in H by reflexivity.
    erewrite bind_Ok in H by reflexivity.
    unfold update_obj in H. cbn in H. rewrite Hv in H. discriminate.
Qed.

Lemma takeChildAt_inv index st r st' :
  Property.takeChildAt index st = Ok r st' ->
  (r = None /\ st' = st)
  \/ exists i a o,
       index = Z.of_nat i /\ root_property_ st !! i = Some a /\ heap st !! a = Some o
       /\ r = Some a
       /\ st' = set_heap (<[a := setParent false o]> (heap st))
                  (set_children (delete i (root_property_ st)) st).
Proof.
  intros H.
  destruct (Z.ltb_spec index 0) as [Hneg|Hnn].
  { rewrite takeChildAt_out_of_range in H by lia. inversion H. now left. }
  destruct (Z.leb_spec (Property.numChildren st) index) as [Hout|Hin].
  { rewrite takeChildAt_out_of_range in H by lia. inversion H. now left. }
  right. unfold Property.numChildren in Hin.
  destruct (lookup_lt_is_Some_2 (root_property_ st) (Z.to_nat index)) as [a Ha]; [lia|].
  replace index with (Z.of_nat (Z.to_nat index)) in H by lia.
  destruct (heap st !! a) as [o|] eqn:Ho.
  - rewrite (takeChildAt_in_range _ _ _ _ Ha Ho) in H. inversion H; subst.
    exists (Z.to_nat index), a, o. repeat split; try assumption. lia.
  - exfalso. unfold Property.takeChildAt in H.
    erewrite bind_Ok in H by reflexivity.
    unfold Property.numChildren in H.
    destruct (Z.ltb_spec (Z.of_nat (Z.to_nat index)) 0); [lia|].
    destruct (Z.leb_spec (Z.of_nat (length (root_property_ st)))
                (Z.of_nat (Z.to_nat index))); [lia|].
    cbn [orb] in H. rewrite Nat2Z.id, Ha in H.
    erewrite bind_Ok in H by reflexivity.
    unfold bind, update_obj in H. cbn in H. rewrite Ho in H. discriminate.
Qed.

(** ** Clearing the saved slots *)

Lemma detach_and_destroy st a o :
  heap st !! a = Some o ->
  (update_obj (Some a) (setParent false) ;;; Property.destroy (Some a)) st =
    Ok tt (mkState (context_ st) (factory_ st)
             (if decide (Some a = current_ st /\ a ∈ connections st)
              then None else current_ st)
             (render_panel_ st) (root_property_ st) (delete a (heap st))
             (filter (fun x => x <> a) (connections st))
             (trace st ++ [Delete a])).
Proof.
  intros Ha.
  rewrite (bind_Ok _ _ _ _ _ (update_obj_live _ _ _ _ Ha)).
  erewrite destroy_live by (cbn; apply lookup_insert_eq).
  unfold after_destroy. cbn. now rewrite delete_insert_eq.
Qed.

Lemma delete_children_spec (doomed : list addr) : forall st,
  NoDup doomed ->
  (forall a, a ∈ doomed -> is_Some (heap st !! a)) ->
  (forall c, current_ st = Some c -> c ∉ doomed) ->
  exists st',
    foreach doomed
      (fun a => update_obj (Some a) (setParent false) ;;; Property.destroy (Some a)) st
      = Ok tt st'
    /\ current_ st' = current_ st
    /\ root_property_ st' = root_property_ st
    /\ factory_ st' = factory_ st
    /\ context_ st' = context_ st
    /\ (forall b, b ∉ doomed -> heap st' !! b = heap st !! b)
    /\ (forall b, b ∈ doomed -> heap st' !! b = None)
    /\ trace st' = trace st ++ map Delete doomed.
Proof.
  induction doomed as [|a rest IH]; intros st Hnd Hlive Hcur.
  - exists st. do 6 (split; [reflexivity|]).
    split; [intros b Hb; inversion Hb|].
    cbn. now rewrite app_nil_r.
  - apply NoDup_cons in Hnd as [Ha Hnd].
    destruct (Hlive a) as [o Ho]; [left|].
    cbn [foreach]. rewrite (bind_Ok _ _ _ _ _ (detach_and_destroy _ _ _ Ho)).
    assert (Hkeep : (if decide (Some a = current_ st /\ a ∈ connections st)
                     then None else current_ st) = current_ st).
    { destruct (decide _) as [[H _]|_]; [|reflexivity].
      exfalso. apply (Hcur a); [now symmetry | left]. }
    rewrite Hkeep.
    match goal with |- context [foreach rest _ ?s] => set (st1 := s) end.
    destruct (IH st1) as (st' & Hrun & H1 & H2 & H3 & H4 & H5 & H6 & H7).
    + exact Hnd.
    + intros b Hb. subst st1. cbn.
      rewrite lookup_delete_ne by (intros ->; contradiction).
      apply Hlive. now right.
    + intros c Hc. subst st1. cbn in Hc. intros Hin. apply (Hcur c Hc). now right.
    + exists st'. split; [exact Hrun|]. subst st1. cbn in *.
      split; [exact H1|]. split; [exact H2|]. split; [exact H3|]. split; [exact H4|].
      split; [|split].
      * intros b Hb. rewrite not_elem_of_cons in Hb. destruct Hb as [Hba Hb].
        rewrite (H5 b Hb). now apply lookup_delete_ne.
      * intros b Hb. apply elem_of_cons in Hb as [->|Hb]; [|now apply H6].
        rewrite (H5 a Ha). apply lookup_delete_eq.
      * rewrite H7, <- app_assoc. reflexivity.
Qed.

Lemma removeChildren_spec st c rest :
  well_formed st ->
  current_ st = Some c ->
  root_property_ st = c :: rest ->
  exists st',
    Property.removeChildren 1 st = Ok tt st'
    /\ manager_invariant st'
    /\ current_ st' = Some c
    /\ root_property_ st' = [c]
    /\ factory_ st' = factory_ st
    /\ context_ st' = context_ st
    /\ heap st' !! c = heap st !! c
    /\ trace st' = trace st ++ map Delete rest.
Proof.
  intros (Hnd & Hown & Hlive) Hcur Hroot.
  rewrite Hroot in Hnd. apply NoDup_cons in Hnd as [Hc Hnd].
  destruct (delete_children_spec rest st Hnd) as (st1 & Hrun & H1 & H2 & H3 & H4 & H5 & H6 & H7).
  { intros a Ha. destruct (Hown a) as (o & Ho & _); [rewrite Hroot; now right | eauto]. }
  { intros c' Hc'. congruence. }
  unfold Property.removeChildren.
  erewrite bind_Ok by reflexivity.
  rewrite Hroot. change (skipn (Z.to_nat 1) (c :: rest)) with rest.
  rewrite (bind_Ok _ _ _ _ _ Hrun).
  eexists. split; [reflexivity|].
  rewrite H2, Hroot. change (firstn (Z.to_nat 1) (c :: rest)) with [c].
  cbn. split; [|rewrite H1, H5 by assumption; repeat split; assumption].
  split; [split; [|split]|].
  - apply NoDup_singleton.
  - intros b Hb. cbn in Hb |- *. apply list_elem_of_singleton in Hb as ->.
    rewrite (H5 c Hc). apply Hown. rewrite Hroot. left.
  - intros c' Hc'. cbn in Hc' |- *. rewrite H1, Hcur in Hc'. inversion Hc'; subst.
    rewrite (H5 c' Hc). now apply Hlive.
  - exists c. cbn. split; [congruence | reflexivity].
Qed.

(** ** Appending saved views *)

Lemma add_default_appends st v o :
  heap st !! v = Some o ->
  NodeManager.add (Some v) default_index st =
    Ok tt (set_heap (<[v := setParent true o]> (heap st))
             (set_children (root_property_ st ++ [v]) st)).
Proof.
  intros Hv. unfold NodeManager.add, NodeControllerContainer.addChild, default_index.
  erewrite bind_Ok by reflexivity.
  change (-1 <? 0)%Z with true. cbv iota.
  rewrite (addChild_live _ _ _ _ Hv). do 3 f_equal.
  rewrite <- insert_at_length. f_equal.
  unfold Property.numChildren.
  set (n := Z.of_nat (length (root_property_ st))).
  assert (Hlen : length (root_property_ st) = Z.to_nat n) by (subst n; lia).
  assert (Hn : (0 <= n)%Z) by (subst n; lia).
  rewrite Hlen. clearbody n.
  destruct (Z.eqb_spec n 0) as [->|Hn0]; [reflexivity|].
  destruct (Z.ltb_spec n 0); [lia|].
  destruct (Z.ltb_spec n n); [lia | reflexivity].
Qed.

Lemma add_inv view index st u st' :
  NodeManager.add view index st = Ok u st' ->
  (view = None /\ st' = st)
  \/ exists v o k,
       view = Some v /\ heap st !! v = Some o
       /\ st' = set_heap (<[v := setParent true o]> (heap st))
                  (set_children (Property.insert_at k v (root_property_ st)) st)
       /\ (k <= length (root_property_ st))%nat
       /\ (root_property_ st <> [] -> (1 <= k)%nat).
Proof.
  unfold NodeManager.add. intros H.
  erewrite bind_Ok in H by reflexivity.
  destruct view as [v|].
  - right. apply addChild_inv in H as (o & k & H1 & H2 & H3 & H4).
    exists v, o, k. auto.
  - left. inversion H. auto.
Qed.

Lemma class_of_saved (o : NodeController) :
  Cfg.mapGetString "Class" (Some (NodeController_save o Empty)) = Some (class_id_ o).
Proof. destruct o as [cid nm par ctx act [nc se ses sep sfd]]. reflexivity. Qed.

Lemma load_keeps_parent config o :
  parent_ (NodeController_load config o) = parent_ o.
Proof. reflexivity. Qed.

Lemma allocated_update st a o st1 f :
  allocated st a o st1 -> parent_ (f o) = false ->
  allocated st a (f o) (set_heap (<[a := f o]> (heap st1)) st1).
Proof.
  intros (Ha & Hpar & ->) Hf. split; [exact Ha|]. split; [exact Hf|].
  unfold set_heap. cbn. now rewrite insert_insert_eq.
Qed.

(** One round of the loop of [load] on an entry without a usable "Class" does
    nothing; on an entry with a class it creates, loads and appends. *)
Lemma load_saved_invariant n : forall i svc st st',
  NodeManager.load_saved n i svc st = Ok tt st' ->
  manager_invariant st ->
  manager_invariant st' /\ current_ st' = current_ st.
Proof.
  induction n as [|n IH]; intros i svc st st' H Hinv.
  - inversion H; subst. auto.
  - cbn [NodeManager.load_saved] in H.
    apply bind_inv in H as (u & st1 & Hround & Hrest).
    assert (Hstep : manager_invariant st1 /\ current_ st1 = current_ st).
    { destruct (Cfg.mapGetString "Class" (Cfg.listChildAt i svc)) as [class_id|].
      - apply bind_inv in Hround as (view & s1 & Hcreate & Hround).
        apply bind_inv in Hround as (u1 & s2 & Hload & Hadd).
        apply create_inv in Hcreate as (a & o & -> & Hal & _ & _).
        apply update_obj_inv in Hload as (a' & o' & Ea & Ho' & ->).
        inversion Ea; subst a'; clear Ea.
        assert (o' = o) as ->.
        { destruct Hal as (_ & _ & ->). cbn in Ho'.
          rewrite lookup_insert_eq in Ho'. congruence. }
        pose proof (allocated_update _ _ _ _ (NodeController_load (Cfg.listChildAt i svc))
                      Hal (proj1 (proj2 Hal))) as Hal2.
        pose proof (allocated_invariant _ _ _ _ Hal2 Hinv) as Hinv2.
        destruct (allocated_fresh _ _ _ _ Hal2 (proj1 Hinv)) as (Ha2 & Hnotin & _).
        apply add_inv in Hadd as [[E _]|(v & ov & k & Ev & Hv & -> & Hk & Hk1)];
          [discriminate|].
        inversion Ev; subst v; clear Ev.
        split.
        + apply invariant_insert; try assumption.
          apply Hk1. apply slot0_nonempty. exact (proj2 Hinv2).
        + destruct Hal2 as (_ & _ & ->). reflexivity.
      - inversion Hround; subst. auto. }
    destruct Hstep as [Hinv1 Hc1].
    destruct (IH _ _ _ _ Hrest Hinv1) as [Hinv' Hc']. split; [exact Hinv' | congruence].
Qed.

Lemma load_invariant config st st' :
  NodeManager.load config st = Ok tt st' ->
  manager_invariant st ->
  manager_invariant st'.
Proof.
  unfold NodeManager.load. intros H Hinv.
  apply bind_inv in H as (u & st1 & Hcur & H).
  apply bind_inv in H as (u' & st2 & Hclear & Hloop).
  assert (Hinv1 : manager_invariant st1).
  { destruct (Cfg.mapGetString "Class" (Cfg.mapGetChild "Current" config)) as [class_id|].
    - apply bind_inv in Hcur as (view & s1 & Hcreate & Hcur).
      apply bind_inv in Hcur as (u1 & s2 & Hload & Hset).
      apply create_inv in Hcreate as (a & o & -> & Hal & _ & _).
      apply update_obj_inv in Hload as (a' & o' & Ea & Ho' & ->).
      inversion Ea; subst a'; clear Ea.
      assert (o' = o) as ->.
      { destruct Hal as (_ & _ & ->). cbn in Ho'.
        rewrite lookup_insert_eq in Ho'. congruence. }
      pose proof (allocated_update _ _ _ _
                    (NodeController_load (Cfg.mapGetChild "Current" config))
                    Hal (proj1 (proj2 Hal))) as Hal2.
      destruct (setCurrent_allocated _ _ _ _ false Hal2 (proj1 Hinv))
        as (s3 & Hset' & Hinv3 & _).
      rewrite Hset' in Hset. inversion Hset; subst. exact Hinv3.
    - inversion Hcur; subst. exact Hinv. }
  destruct Hinv1 as [Hwf1 (c & Hc & H0)].
  destruct (root_property_ st1) as [|x rest] eqn:Hroot; [discriminate|].
  cbn in H0. inversion H0; subst x.
  destruct (removeChildren_spec st1 c rest Hwf1 Hc Hroot) as (s2 & Hrm & Hinv2 & _).
  rewrite Hrm in Hclear. inversion Hclear; subst s2.
  exact (proj1 (load_saved_invariant _ _ _ _ _ Hloop Hinv2)).
Qed.

(** ** The invariant under every action *)

Lemma getNumViews_le st : (NodeManager.getNumViews st < Property.numChildren st \/
                           NodeManager.getNumViews st = 0)%Z.
Proof.
  unfold NodeManager.getNumViews.
  destruct (Z.leb_spec (Property.numChildren st) 0); lia.
Qed.

Lemma take_from_invariant view n : forall i st r st',
  (0 <= i)%Z ->
  (Property.numChildren st < 2 ^ 31)%Z ->
  NodeManager.take_from n i view st = Ok r st' ->
  manager_invariant st ->
  manager_invariant st'.
Proof.
  induction n as [|n IH]; intros i st r st' Hi Hnum H Hinv.
  - inversion H; subst. exact Hinv.
  - cbn [NodeManager.take_from] in H.
    erewrite bind_Ok in H by reflexivity.
    destruct (Z.ltb_spec i (NodeManager.getNumViews st)) as [Hlt|Hge];
      [|inversion H; subst; exact Hinv].
    pose proof (getNumViews_le st) as Hle.
    rewrite wrap_int_small in H by lia.
    destruct (decide (NodeManager.getViewAt i st = view)) as [_|_].
    + apply takeChildAt_inv in H as [[_ ->]|(j & a & o & Ej & Hj & Ha & _ & ->)];
        [exact Hinv|].
      apply invariant_take; try assumption. lia.
    + apply (IH (i + 1)%Z _ _ _ ltac:(lia) Hnum H Hinv).
Qed.

Lemma invariant_log e st : manager_invariant st -> manager_invariant (log e st).
Proof. intros H. exact H. Qed.

Lemma initialize_invariant st st' :
  well_formed st ->
  NodeManager.initialize st = Ok tt st' ->
  manager_invariant st'.
Proof.
  intros Hwf H. unfold NodeManager.initialize in H.
  apply bind_inv in H as (view & s1 & Hcreate & Hset).
  apply create_inv in Hcreate as (a & o & -> & Hal & _).
  destruct (setCurrent_allocated _ _ _ _ false Hal Hwf) as (s2 & Hset' & Hinv & _).
  rewrite Hset' in Hset. inversion Hset; subst. exact Hinv.
Qed.

Lemma perform_invariant a st st' :
  manager_invariant st ->
  admissible a st ->
  perform a st = Ok tt st' ->
  manager_invariant st'.
Proof.
  intros Hinv Hadm H. destruct a; cbn [perform admissible] in *.
  - (* initialize *)
    exact (initialize_invariant _ _ (proj1 Hinv) H).
  - (* create *)
    apply bind_inv in H as (view & s1 & Hcreate & Hret). inversion Hret; subst.
    apply create_inv in Hcreate as (a & o & _ & Hal & _).
    exact (allocated_invariant _ _ _ _ Hal Hinv).
  - (* setCurrentFrom *)
    unfold NodeManager.setCurrentFrom in H.
    destruct source_view as [x|]; [|inversion H; subst; exact Hinv].
    erewrite bind_Ok in H by reflexivity.
    destruct (decide (Some x <> current_ st)); [|inversion H; subst; exact Hinv].
    apply bind_inv in H as (new_current & s1 & Hcopy & H).
    apply bind_inv in H as (u & s2 & Hset & Hlog).
    apply copy_inv in Hcopy as (x' & src & a & o & _ & _ & -> & Hal & _).
    destruct (setCurrent_allocated _ _ _ _ false Hal (proj1 Hinv))
      as (s3 & Hset' & Hinv3 & _).
    rewrite Hset' in Hset. inversion Hset; subst.
    inversion Hlog; subst. now apply invariant_log.
  - (* setCurrentNodeControllerType *)
    unfold NodeManager.setCurrentNodeControllerType in H.
    apply bind_inv in H as (view & s1 & Hcreate & Hset).
    apply create_inv in Hcreate as (a & o & -> & Hal & _).
    destruct (setCurrent_allocated _ _ _ _ true Hal (proj1 Hinv))
      as (s2 & Hset' & Hinv2 & _).
    rewrite Hset' in Hset. inversion Hset; subst. exact Hinv2.
  - (* copyCurrentToList *)
    unfold NodeManager.copyCurrentToList in H.
    erewrite bind_Ok in H by reflexivity.
    destruct (current_ st) as [c|] eqn:Hc; [|inversion H; subst; exact Hinv].
    apply bind_inv in H as (new_copy & s1 & Hcopy & H).
    apply copy_inv in Hcopy as (x' & src & a & o & _ & _ & -> & Hal & _).
    apply bind_inv in H as (o1 & s2 & Hderef & H).
    apply deref_inv in Hderef as (a' & Ea & Ho1 & ->).
    inversion Ea; subst a'; clear Ea.
    erewrite bind_Ok in H by reflexivity.
    apply bind_inv in H as (u & s3 & Hname & Hadd).
    apply update_obj_inv in Hname as (a' & o' & Ea & Ho' & ->).
    inversion Ea; subst a'; clear Ea.
    assert (o' = o) as ->.
    { destruct Hal as (_ & _ & ->). cbn in Ho'.
      rewrite lookup_insert_eq in Ho'. congruence. }
    pose proof (allocated_update _ _ _ _
                  (setName (Factory.getClassName (getClassId o1) s1))
                  Hal (proj1 (proj2 Hal))) as Hal2.
    pose proof (allocated_invariant _ _ _ _ Hal2 Hinv) as Hinv2.
    destruct (allocated_fresh _ _ _ _ Hal2 (proj1 Hinv)) as (Ha2 & Hnotin & _).
    apply addChild_inv in Hadd as (ov & k & Hv & -> & Hk & Hk1).
    apply invariant_insert; try assumption.
    apply Hk1. apply slot0_nonempty. exact (proj2 Hinv2).
  - (* add *)
    apply add_inv in H as [[_ ->]|(v & o & k & -> & Hv & -> & Hk & Hk1)];
      [exact Hinv|].
    apply invariant_insert; try assumption.
    apply Hk1. apply slot0_nonempty. exact (proj2 Hinv).
  - (* take *)
    apply bind_inv in H as (r & s1 & Htake & Hret). inversion Hret; subst.
    unfold NodeManager.take in Htake.
    erewrite bind_Ok in Htake by reflexivity.
    exact (take_from_invariant _ _ 0%Z _ _ _ ltac:(lia) Hadm Htake Hinv).
  - (* takeAt *)
    apply bind_inv in H as (r & s1 & Htake & Hret). inversion Hret; subst.
    unfold NodeManager.takeAt in Htake.
    destruct (Z.ltb_spec index 0); [inversion Htake; subst; exact Hinv|].
    apply takeChildAt_inv in Htake as [[_ ->]|(j & a & o & Ej & Hj & Ha & _ & ->)];
      [exact Hinv|].
    apply invariant_take; try assumption.
    destruct (Z.eq_dec index (2 ^ 31 - 1)) as [->|Hmax].
    + rewrite wrap_int_max in Ej. lia.
    + rewrite wrap_int_small in Ej by lia. lia.
  - (* load *)
    exact (load_invariant _ _ _ H Hinv).
  - (* delete *)
    destruct (heap st !! obj) as [po|] eqn:Hobj.
    + rewrite (destroy_live _ _ _ Hobj) in H. inversion H; subst.
      now apply invariant_destroy.
    + unfold Property.destroy, bind, deref in H. rewrite Hobj in H. discriminate.
Qed.

(** ** Slot 0 and the current controller *)

Lemma well_formed_new context classes : well_formed (NodeManager_new context classes).
Proof.
  split; [apply NoDup_nil_2|]. split.
  - intros a Ha. inversion Ha.
  - intros c Hc. discriminate.
Qed.

(** C9 as stated fails in two reachable states.  On a manager on which
    [initialize()] was never called, [add] puts the view into slot 0 although
    there is no current controller; and after somebody else deleted the
    current controller, slot 0 holds the first saved view. *)
Lemma slot0_can_hold_a_saved_view :
  (reachable Fixture.added_before_initialize
   /\ root_property_ Fixture.added_before_initialize !! 0%nat = Some 1%positive
   /\ current_ Fixture.added_before_initialize = None
   /\ ~ slot0_reserved Fixture.added_before_initialize)
  /\ (reachable Fixture.current_deleted
      /\ root_property_ Fixture.current_deleted !! 0%nat = Some 2%positive
      /\ current_ Fixture.current_deleted = None
      /\ ~ slot0_reserved Fixture.current_deleted).
Proof.
  split.
  - split; [|split; [reflexivity|split; [reflexivity|]]].
    + apply (reachable_step Fixture.created_before_initialize (DoAdd (Some 1%positive) (-1)));
        [|vm_compute; reflexivity].
      apply (reachable_step Fixture.fresh_manager (DoCreate "rviz_topmap/Edge"));
        [apply reachable_new | vm_compute; reflexivity].
    + intros H. specialize (H 1%positive eq_refl). discriminate.
  - split; [|split; [reflexivity|split; [reflexivity|]]].
    + apply (reachable_step Fixture.with_two_saved (DoDelete 1%positive));
        [|vm_compute; reflexivity].
      apply (reachable_step Fixture.with_one_saved DoCopyCurrentToList);
        [|vm_compute; reflexivity].
      apply (reachable_step Fixture.initialized DoCopyCurrentToList);
        [|vm_compute; reflexivity].
      apply (reachable_step Fixture.fresh_manager DoInitialize);
        [apply reachable_new | vm_compute; reflexivity].
    + intros H. specialize (H 2%positive eq_refl). discriminate.
Qed.

(** C9, amended: slot 0 is reserved for the current controller from
    [initialize()] on, as long as the current controller is not deleted from
    outside.  [initialize()] on a newly constructed (or any well-formed)
    manager establishes the invariant "the tree holds each child once and
    slot 0 holds the current controller"; every admissible action that
    returns keeps it ([add], [copyCurrentToList] and the saved entries of
    [load] never touch slot 0, the container's [addChild] treating index 0
    as index 1); under the invariant what slot 0 holds is the one current
    controller; and [setCurrent] of a live controller that is not in the tree
    puts it into slot 0, deletes the previous current and takes it out of
    the tree. *)
Theorem slot0_reserved_once_initialized :
  (forall context classes, well_formed (NodeManager_new context classes))
  /\ (forall st st',
        well_formed st -> NodeManager.initialize st = Ok tt st' -> manager_invariant st')
  /\ (forall st a st',
        manager_invariant st -> admissible a st -> perform a st = Ok tt st' ->
        manager_invariant st')
  /\ (forall st,
        manager_invariant st ->
        slot0_reserved st /\ NoDup (root_property_ st)
        /\ exists c, current_ st = Some c /\ root_property_ st !! 0%nat = Some c)
  /\ (forall child st,
        NodeControllerContainer.addChild child 0 st
        = NodeControllerContainer.addChild child 1 st)
  /\ (forall st n on mimic_view,
        manager_invariant st -> heap st !! n = Some on -> n ∉ root_property_ st ->
        exists st',
          NodeManager.setCurrent (Some n) mimic_view st = Ok tt st'
          /\ manager_invariant st'
          /\ current_ st' = Some n
          /\ forall p, current_ st = Some p ->
               heap st' !! p = None /\ p ∉ root_property_ st').
Proof.
  split; [exact well_formed_new|].
  split; [exact initialize_invariant|].
  split; [intros st a st'; apply perform_invariant|].
  split; [|split; [reflexivity|]].
  - intros st [Hwf (c & Hc & H0)]. split; [|split; [exact (proj1 Hwf) | eauto]].
    intros a Ha. congruence.
  - intros st n on mimic_view [Hwf (c & Hc & H0)] Hn Hnotin.
    destruct (setCurrent_well_formed st n on mimic_view Hwf Hn Hnotin)
      as (st' & Hset & Hinv & Hcur & _ & _ & _ & _ & Hprev).
    { rewrite Hc. intros E. inversion E; subst.
      apply Hnotin. eapply list_elem_of_lookup_2. exact H0. }
    exists st'. auto.
Qed.

(** ** Loading what was saved *)

Lemma fold_listAppend (views : list NodeController) : forall acc,
  fold_left (fun acc o => Cfg.listAppend (NodeController_save o Empty) acc) views acc =
  match views with
  | [] => acc
  | _ => List (Cfg.as_list acc ++ map (fun o => NodeController_save o Empty) views)
  end.
Proof.
  induction views as [|o views IH]; intros acc; [reflexivity|].
  cbn [fold_left]. rewrite IH. destruct views as [|o' views'].
  - reflexivity.
  - unfold Cfg.listAppend at 1. cbn [Cfg.as_list map]. now rewrite <- app_assoc.
Qed.

Lemma views_config_cases (views : list NodeController) :
  views_config views =
  match views with
  | [] => Empty
  | _ => List (map (fun o => NodeController_save o Empty) views)
  end.
Proof. unfold views_config. rewrite fold_listAppend. destruct views; reflexivity. Qed.

Lemma views_config_length views :
  Cfg.listLength (Some (views_config views)) = Z.of_nat (length views).
Proof.
  rewrite views_config_cases. destruct views; [reflexivity|].
  unfold Cfg.listLength. now rewrite length_map.
Qed.

Lemma load_saved_spec (vos : list NodeController) : forall (k : nat) cfgs st,
  skipn k cfgs = map (fun o => NodeController_save o Empty) vos ->
  manager_invariant st ->
  Forall (class_known st) vos ->
  (Z.of_nat k + Z.of_nat (length vos) < 2 ^ 31)%Z ->
  exists st' news,
    NodeManager.load_saved (length vos) (Z.of_nat k) (Some (List cfgs)) st = Ok tt st'
    /\ manager_invariant st'
    /\ current_ st' = current_ st
    /\ factory_ st' = factory_ st
    /\ context_ st' = context_ st
    /\ root_property_ st' = root_property_ st ++ news
    /\ Forall2 (holds_copy_of st') news vos
    /\ (forall b o, heap st !! b = Some o -> heap st' !! b = Some o).
Proof.
  induction vos as [|o vos IH]; intros k cfgs st Hdrop Hinv Hknown Hsize.
  - exists st, []. split; [reflexivity|]. split; [exact Hinv|].
    do 3 (split; [reflexivity|]). split; [now rewrite app_nil_r|].
    split; [constructor | auto].
  - cbn [map] in Hdrop. apply drop_cons_inv in Hdrop as [Hk Hdrop].
    apply Forall_cons in Hknown as [[pc Hpc] Hknown].
    cbn [length] in Hsize.
    cbn [NodeManager.load_saved length].
    assert (Hentry : Cfg.listChildAt (Z.of_nat k) (Some (List cfgs))
                     = Some (NodeController_save o Empty)).
    { unfold Cfg.listChildAt. destruct (Z.ltb_spec (Z.of_nat k) 0); [lia|].
      now rewrite Nat2Z.id. }
    rewrite Hentry, class_of_saved.
    pose proof (create_Some _ _ _ Hpc) as Hcreate. cbv zeta in Hcreate.
    set (a := fresh (dom (heap st))) in *.
    set (o0 := NodeController_initialize (context_ st)
                 (setClassId (class_id_ o) (NodeController_new (pc_defaults pc)))) in *.
    set (st1 := set_heap (<[a := o0]> (heap st)) st) in *.
    assert (Hal : allocated st a o0 st1).
    { split; [apply fresh_not_live|]. split; reflexivity. }
    set (o1 := NodeController_load (Some (NodeController_save o Empty)) o0).
    pose proof (allocated_update _ _ _ _
                  (NodeController_load (Some (NodeController_save o Empty)))
                  Hal eq_refl) as Hal2.
    fold o1 in Hal2.
    set (st2 := set_heap (<[a := o1]> (heap st1)) st1) in *.
    pose proof (allocated_invariant _ _ _ _ Hal2 Hinv) as Hinv2.
    destruct (allocated_fresh _ _ _ _ Hal2 (proj1 Hinv)) as (Ha2 & Hnotin & _).
    pose proof (add_default_appends _ _ _ Ha2) as Hadd.
    set (st3 := set_heap (<[a := setParent true o1]> (heap st2))
                  (set_children (root_property_ st2 ++ [a]) st2)) in *.
    assert (Hinv3 : manager_invariant st3).
    { subst st3. rewrite <- insert_at_length.
      apply invariant_insert; try assumption.
      pose proof (slot0_nonempty _ (proj2 Hinv2)) as Hne.
      destruct (root_property_ st2); [congruence | cbn; lia]. }
    destruct (IH (S k) cfgs st3 Hdrop Hinv3) as
      (st' & news & Hrun & Hinv' & Hcur & Hfac & Hctx & Hroot & Hall & Hmono).
    { eapply Forall_impl; [exact Hknown|]. intros x Hx. exact Hx. }
    { lia. }
    exists st', (a :: news).
    split.
    { erewrite bind_Ok; cycle 1.
      { rewrite (bind_Ok _ _ _ _ _ Hcreate).
        erewrite bind_Ok by (apply update_obj_live; subst st1; cbn; apply lookup_insert_eq).
        exact Hadd. }
      rewrite wrap_int_small by lia.
      replace (Z.of_nat k + 1)%Z with (Z.of_nat (S k)) by lia. exact Hrun. }
    split; [exact Hinv'|]. split; [exact Hcur|]. split; [exact Hfac|].
    split; [exact Hctx|]. split; [|split].
    + rewrite Hroot. subst st3 st2 st1. cbn. now rewrite <- app_assoc.
    + constructor; [|exact Hall].
      exists (setParent true o1). split; [|split].
      * apply Hmono. subst st3. cbn. apply lookup_insert_eq.
      * subst o1. now rewrite load_save.
      * subst o1. now rewrite load_save.
    + intros b ob Hb. apply Hmono. subst st3 st2 st1. cbn.
      assert (a <> b).
      { intros E. pose proof (fresh_not_live st) as Hf. fold a in Hf.
        rewrite E in Hf. congruence. }
      now rewrite !lookup_insert_ne.
Qed.

Lemma assoc_get_set_eq key c m : Cfg.assoc_get key (Cfg.assoc_set key c m) = Some c.
Proof.
  induction m as [|[k c'] m IH]; cbn.
  - now rewrite String.eqb_refl.
  - destruct (String.eqb k key) eqn:E; cbn; rewrite E; [reflexivity | exact IH].
Qed.

Lemma assoc_get_set_ne key key' c m :
  key <> key' -> Cfg.assoc_get key (Cfg.assoc_set key' c m) = Cfg.assoc_get key m.
Proof.
  intros Hne. induction m as [|[k c'] m IH]; cbn.
  - destruct (String.eqb_spec key' key); [congruence | reflexivity].
  - destruct (String.eqb_spec k key') as [->|Hk]; cbn.
    + destruct (String.eqb_spec key' key); [congruence | reflexivity].
    + destruct (String.eqb_spec k key); [reflexivity | exact IH].
Qed.

Lemma saved_config_current cur views config :
  Cfg.mapGetChild "Current" (Some (saved_config cur views config))
  = Some (NodeController_save cur Empty).
Proof.
  unfold saved_config, Cfg.mapSetChild, Cfg.mapGetChild. cbn [Cfg.as_map].
  rewrite assoc_get_set_ne by discriminate. apply assoc_get_set_eq.
Qed.

Lemma saved_config_saved cur views config :
  Cfg.mapGetChild "Saved" (Some (saved_config cur views config))
  = Some (views_config views).
Proof.
  unfold saved_config, Cfg.mapSetChild, Cfg.mapGetChild. cbn [Cfg.as_map].
  apply assoc_get_set_eq.
Qed.

Lemma setCurrent_content st n on mimic_view st' :
  well_formed st -> heap st !! n = Some on -> current_ st <> Some n ->
  NodeManager.setCurrent (Some n) mimic_view st = Ok tt st' ->
  heap st' !! n = Some (setParent true (setName "Current View" on)).
Proof.
  intros (_ & _ & Hlive) Hn Hne H.
  destruct (current_ st) as [p|] eqn:Hc.
  - destruct (Hlive p eq_refl) as [po Hp].
    rewrite (setCurrent_replaces _ _ _ _ _ _ Hc Hn Hp) in H by congruence.
    inversion H; subst; cbn.
    rewrite lookup_delete_ne by congruence. apply lookup_insert_eq.
  - rewrite (setCurrent_no_previous _ _ _ _ Hc Hn) in H.
    inversion H; subst; cbn. apply lookup_insert_eq.
Qed.

Lemma load_spec st cfg cur vos :
  well_formed st ->
  Cfg.mapGetChild "Current" (Some cfg) = Some (NodeController_save cur Empty) ->
  Cfg.mapGetChild "Saved" (Some cfg) = Some (views_config vos) ->
  class_known st cur ->
  Forall (class_known st) vos ->
  (Z.of_nat (length vos) < 2 ^ 31)%Z ->
  exists st' a news,
    NodeManager.load (Some cfg) st = Ok tt st'
    /\ manager_invariant st'
    /\ current_ st' = Some a
    /\ root_property_ st' = a :: news
    /\ holds_copy_of st' a cur
    /\ Forall2 (holds_copy_of st') news vos.
Proof.
  intros Hwf Hcurcfg Hsaved [pc Hpc] Hknown Hsize.
  unfold NodeManager.load. rewrite Hcurcfg, Hsaved, class_of_saved.
  (* the current controller *)
  pose proof (create_Some _ _ _ Hpc) as Hcreate. cbv zeta in Hcreate.
  set (a := fresh (dom (heap st))) in *.
  set (o0 := NodeController_initialize (context_ st)
               (setClassId (class_id_ cur) (NodeController_new (pc_defaults pc)))) in *.
  set (st1 := set_heap (<[a := o0]> (heap st)) st) in *.
  assert (Hal : allocated st a o0 st1).
  { split; [apply fresh_not_live|]. split; reflexivity. }
  set (o1 := NodeController_load (Some (NodeController_save cur Empty)) o0).
  pose proof (allocated_update _ _ _ _
                (NodeController_load (Some (NodeController_save cur Empty)))
                Hal eq_refl) as Hal2.
  fold o1 in Hal2.
  set (st2 := set_heap (<[a := o1]> (heap st1)) st1) in *.
  destruct (allocated_fresh _ _ _ _ Hal2 Hwf) as (Ha2 & Hnotin2 & Hcur2).
  destruct (setCurrent_allocated _ _ _ _ false Hal2 Hwf)
    as (st3 & Hset & Hinv3 & Hc3 & Hfac3 & Hctx3).
  pose proof (setCurrent_content _ _ _ _ _ (allocated_well_formed _ _ _ _ Hal2 Hwf)
                Ha2 Hcur2 Hset) as Hcontent.
  (* the saved slots are cleared *)
  destruct Hinv3 as [Hwf3 (c & Hc & H0)].
  rewrite Hc3 in Hc. inversion Hc; subst c; clear Hc.
  destruct (root_property_ st3) as [|x rest] eqn:Hroot3; [discriminate|].
  cbn in H0. inversion H0; subst x; clear H0.
  destruct (removeChildren_spec st3 a rest Hwf3 Hc3 Hroot3)
    as (st4 & Hrm & Hinv4 & Hc4 & Hroot4 & Hfac4 & Hctx4 & Hheap4 & _).
  (* the saved views are rebuilt *)
  assert (Hknown4 : Forall (class_known st4) vos).
  { eapply Forall_impl; [exact Hknown|]. intros o Ho.
    unfold class_known in *. now rewrite Hfac4, Hfac3. }
  assert (Hloop : exists st' news,
    NodeManager.load_saved (Z.to_nat (Cfg.listLength (Some (views_config vos)))) 0
      (Some (views_config vos)) st4 = Ok tt st'
    /\ manager_invariant st'
    /\ current_ st' = current_ st4
    /\ root_property_ st' = root_property_ st4 ++ news
    /\ Forall2 (holds_copy_of st') news vos
    /\ (forall b o, heap st4 !! b = Some o -> heap st' !! b = Some o)).
  { rewrite views_config_length, Nat2Z.id, views_config_cases.
    destruct vos as [|o vos'].
    - exists st4, []. split; [reflexivity|]. split; [exact Hinv4|].
      split; [reflexivity|]. split; [now rewrite app_nil_r|].
      split; [constructor | auto].
    - destruct (load_saved_spec (o :: vos') 0
                  (map (fun o => NodeController_save o Empty) (o :: vos')) st4
                  eq_refl Hinv4 Hknown4 ltac:(lia))
        as (st' & news & Hrun & Hinv' & Hcur' & _ & _ & Hroot' & Hall & Hmono).
      exists st', news. auto 10. }
  destruct Hloop as (st' & news & Hrun & Hinv' & Hcur' & Hroot' & Hall & Hmono).
  exists st', a, news. split.
  { erewrite bind_Ok; cycle 1.
    { rewrite (bind_Ok _ _ _ _ _ Hcreate).
      erewrite bind_Ok by (apply update_obj_live; subst st1; cbn; apply lookup_insert_eq).
      exact Hset. }
    rewrite (bind_Ok _ _ _ _ _ Hrm). exact Hrun. }
  split; [exact Hinv'|]. split; [congruence|].
  split; [now rewrite Hroot', Hroot4|]. split; [|exact Hall].
  exists (setParent true (setName "Current View" o1)). split; [|split].
  - apply Hmono. now rewrite Hheap4.
  - subst o1. now rewrite load_save.
  - subst o1. now rewrite load_save.
Qed.

Lemma copies_saved_alike st news views :
  Forall2 (holds_copy_of st) news views ->
  exists objs,
    Forall2 (fun b o => heap st !! b = Some o) news objs
    /\ views_config objs = views_config views.
Proof.
  intros Hall.
  assert (H : exists objs,
    Forall2 (fun b o => heap st !! b = Some o) news objs
    /\ map (fun o => NodeController_save o Empty) objs
       = map (fun o => NodeController_save o Empty) views).
  { induction Hall as [|b o news views (o' & Hb & Hcid & Htun) Hall (objs & Hobjs & Hmap)].
    - exists []. split; [constructor | reflexivity].
    - exists (o' :: objs). split; [now constructor|].
      cbn [map]. now rewrite Hmap, (save_depends_on_class_and_tuning o o' Hcid Htun). }
  destruct H as (objs & Hobjs & Hmap). exists objs. split; [exact Hobjs|].
  rewrite !views_config_cases.
  destruct objs, views; try reflexivity; try discriminate.
  now rewrite Hmap.
Qed.

(** C7: a manager with a live current controller and live saved views saves
    to a config whose "Current" child is the saved current controller and
    whose "Saved" child lists the saved views in slot order, each entry
    starting with its "Class".  Loading that config into any well-formed
    manager whose factory knows these classes returns; the loaded manager
    has a current controller with the class id and tuning values of the
    saved one, its saved views are, in order, controllers with the class ids
    and tuning values of the saved ones, and saving it gives the same
    config again. *)
Theorem save_then_load_round_trips
    (st st0 : State) (config : Config) (c : addr) :
  current_ st = Some c ->
  is_Some (heap st !! c) ->
  children_live st ->
  (Property.numChildren st < 2 ^ 31)%Z ->
  (forall a o, a = c \/ a ∈ skipn 1 (root_property_ st) ->
               heap st !! a = Some o -> class_known st0 o) ->
  well_formed st0 ->
  exists cur views,
    heap st !! c = Some cur
    /\ Forall2 (fun a o => heap st !! a = Some o) (skipn 1 (root_property_ st)) views
    /\ NodeManager.save config st = Ok (saved_config cur views config) st
    /\ Cfg.mapGetChild "Current" (Some (saved_config cur views config))
       = Some (NodeController_save cur Empty)
    /\ Cfg.mapGetString "Class" (Some (NodeController_save cur Empty))
       = Some (class_id_ cur)
    /\ Cfg.mapGetChild "Saved" (Some (saved_config cur views config))
       = Some (views_config views)
    /\ exists st' a news,
         NodeManager.load (Some (saved_config cur views config)) st0 = Ok tt st'
         /\ current_ st' = Some a
         /\ root_property_ st' = a :: news
         /\ holds_copy_of st' a cur
         /\ Forall2 (holds_copy_of st') news views
         /\ NodeManager.save config st' = Ok (saved_config cur views config) st'.
Proof.
  intros Hcur [cur Hc] Hlive Hnum Hknown Hwf0.
  destruct (live_objects (heap st) (skipn 1 (root_property_ st))) as [views Hviews].
  { intros a Ha. apply Hlive. destruct (root_property_ st); [assumption | now right]. }
  exists cur, views. split; [exact Hc|]. split; [exact Hviews|].
  split; [now apply (save_spec _ _ _ _ _ Hcur Hc Hviews)|].
  split; [apply saved_config_current|]. split; [apply class_of_saved|].
  split; [apply saved_config_saved|].
  assert (Hlen : length views = length (skipn 1 (root_property_ st))).
  { symmetry. exact (Forall2_length _ _ _ Hviews). }
  assert (Hsize : (Z.of_nat (length views) + 1 < 2 ^ 31 + 1)%Z
                  /\ (Z.of_nat (length views) + 1 <= Z.max 1 (Property.numChildren st))%Z).
  { rewrite Hlen, length_drop. unfold Property.numChildren in *. lia. }
  destruct (load_spec st0 (saved_config cur views config) cur views Hwf0
              (saved_config_current _ _ _) (saved_config_saved _ _ _))
    as (st' & a & news & Hload & Hinv' & Hcur' & Hroot' & Hcopy & Hcopies).
  { apply (Hknown c cur); [now left | exact Hc]. }
  { apply Forall_forall. intros o Ho.
    apply list_elem_of_lookup_1 in Ho as [i Hi].
    destruct (Forall2_lookup_r _ _ _ _ _ Hviews Hi) as (b & Hb & Hbo).
    apply (Hknown b o); [right; eapply list_elem_of_lookup_2; exact Hb | exact Hbo]. }
  { lia. }
  exists st', a, news. split; [exact Hload|]. split; [exact Hcur'|].
  split; [exact Hroot'|]. split; [exact Hcopy|]. split; [exact Hcopies|].
  destruct Hcopy as (co & Hco & Hcid & Htun).
  destruct (copies_saved_alike _ _ _ Hcopies) as (objs & Hobjs & Hcfg).
  assert (Hsave : NodeManager.save config st' = Ok (saved_config co objs config) st').
  { apply (save_spec _ _ _ _ _ Hcur' Hco).
    - rewrite Hroot'. exact Hobjs.
    - unfold Property.numChildren. rewrite Hroot'. cbn [length].
      rewrite (Forall2_length _ _ _ Hcopies). lia. }
  rewrite Hsave. unfold saved_config.
  now rewrite Hcfg, (save_depends_on_class_and_tuning cur co Hcid Htun).
Qed.

Lemma fixture_mixed_live : children_live Fixture.mixed.
Proof.
  intros a Ha. vm_compute in Ha.
  repeat (apply elem_of_cons in Ha as [->|Ha]; [vm_compute; eauto|]).
  inversion Ha.
Qed.

Lemma fixture_mixed_known a o :
  a = 3%positive \/ a ∈ skipn 1 (root_property_ Fixture.mixed) ->
  heap Fixture.mixed !! a = Some o -> class_known Fixture.fresh_manager o.
Proof.
  intros [->|Ha] Ho.
  - vm_compute in Ho. inversion Ho; subst. vm_compute. eauto.
  - vm_compute in Ha.
    repeat (apply elem_of_cons in Ha as [->|Ha];
            [vm_compute in Ho; inversion Ho; subst; vm_compute; eauto|]).
    inversion Ha.
Qed.

Lemma save_then_load_round_trips_witness :
  exists cfg st',
    NodeManager.save Empty Fixture.mixed = Ok cfg Fixture.mixed
    /\ NodeManager.load (Some cfg) Fixture.fresh_manager = Ok tt st'
    /\ NodeManager.save Empty st' = Ok cfg st'.
Proof.
  destruct (save_then_load_round_trips Fixture.mixed Fixture.fresh_manager Empty 3%positive)
    as (cur & views & _ & _ & Hsave & _ & _ & _ & st' & a & news & Hload & _ & _ & _ & _ & Hsave').
  - reflexivity.
  - vm_compute. eauto.
  - apply fixture_mixed_live.
  - vm_compute. reflexivity.
  - apply fixture_mixed_known.
  - apply well_formed_new.
  - exists (saved_config cur views Empty), st'.
    split; [exact Hsave | split; [exact Hload | exact Hsave']].
Defined.

(** * Further properties of the manager *)

(** ** Creating and installing in one call *)

Lemma setCurrent_trace st n on mimic_view st' :
  well_formed st -> heap st !! n = Some on -> current_ st <> Some n ->
  NodeManager.setCurrent (Some n) mimic_view st = Ok tt st' ->
  trace st' = trace st ++
    match current_ st with
    | Some p => [(if mimic_view then CallMimic n p else CallTransitionFrom n p);
                 Disconnect p; Connect n; Delete p; EmitCurrentChanged]
    | None => [Connect n; EmitCurrentChanged]
    end.
Proof.
  intros (_ & _ & Hlive) Hn Hne H.
  destruct (current_ st) as [p|] eqn:Hc.
  - destruct (Hlive p eq_refl) as [po Hp].
    rewrite (setCurrent_replaces _ _ _ _ _ _ Hc Hn Hp) in H by congruence.
    inversion H; subst; reflexivity.
  - rewrite (setCurrent_no_previous _ _ _ _ Hc Hn) in H.
    inversion H; subst; reflexivity.
Qed.

Lemma setCurrent_frame st n on mimic_view st' b :
  well_formed st -> heap st !! n = Some on -> current_ st <> Some n ->
  NodeManager.setCurrent (Some n) mimic_view st = Ok tt st' ->
  b <> n -> current_ st <> Some b ->
  heap st' !! b = heap st !! b.
Proof.
  intros (_ & _ & Hlive) Hn Hne H Hbn Hbc.
  destruct (current_ st) as [p|] eqn:Hc.
  - destruct (Hlive p eq_refl) as [po Hp].
    rewrite (setCurrent_replaces _ _ _ _ _ _ Hc Hn Hp) in H by congruence.
    inversion H; subst; cbn.
    rewrite lookup_delete_ne by congruence. now rewrite lookup_insert_ne.
  - rewrite (setCurrent_no_previous _ _ _ _ Hc Hn) in H.
    inversion H; subst; cbn. now rewrite lookup_insert_ne.
Qed.

(** What [setCurrent( create( class_id ), mimic_view )] does on a well-formed
    manager whose factory knows the class. *)
Lemma create_setCurrent_spec st class_id pc mimic_view :
  well_formed st ->
  Factory.find class_id (factory_ st) = Some pc ->
  let a := fresh (dom (heap st)) in
  exists st',
    (view <- NodeManager.create class_id ;; NodeManager.setCurrent view mimic_view) st
      = Ok tt st'
    /\ manager_invariant st'
    /\ current_ st' = Some a
    /\ heap st' !! a =
         Some (setParent true (setName "Current View"
                 (NodeController_initialize (context_ st)
                    (setClassId class_id (NodeController_new (pc_defaults pc))))))
    /\ trace st' = trace st ++
         match current_ st with
         | Some p => [(if mimic_view then CallMimic a p else CallTransitionFrom a p);
                      Disconnect p; Connect a; Delete p; EmitCurrentChanged]
         | None => [Connect a; EmitCurrentChanged]
         end
    /\ (forall p, current_ st = Some p -> heap st' !! p = None /\ p ∉ root_property_ st').
Proof.
  intros Hwf Hfind a.
  pose proof (create_Some _ _ _ Hfind) as Hcreate. cbv zeta in Hcreate. fold a in Hcreate.
  set (o := NodeController_initialize (context_ st)
              (setClassId class_id (NodeController_new (pc_defaults pc)))) in *.
  set (st1 := set_heap (<[a := o]> (heap st)) st) in *.
  assert (Hal : allocated st a o st1).
  { split; [apply fresh_not_live|]. split; reflexivity. }
  pose proof (allocated_well_formed _ _ _ _ Hal Hwf) as Hwf1.
  destruct (allocated_fresh _ _ _ _ Hal Hwf) as (Ha & Hnotin & Hcur).
  destruct (setCurrent_well_formed st1 a o mimic_view Hwf1 Ha Hnotin Hcur)
    as (st' & Hset & Hinv & Hc & _ & _ & _ & _ & Hprev).
  exists st'. split; [now rewrite (bind_Ok _ _ _ _ _ Hcreate)|].
  split; [exact Hinv|]. split; [exact Hc|].
  split; [exact (setCurrent_content _ _ _ _ _ Hwf1 Ha Hcur Hset)|].
  split; [exact (setCurrent_trace _ _ _ _ _ Hwf1 Ha Hcur Hset) | exact Hprev].
Qed.

(** X1: [initialize()] on a well-formed manager stops on a null dereference
    when the factory does not know "rviz/Orbit"; when it does, it returns
    with a new controller of that class as current controller, named
    "Current View", carrying the manager's context and the class defaults,
    in slot 0 of a well-formed tree, the previous current (if any) deleted
    and out of the tree, and [currentChanged] as the last thing emitted. *)
Theorem initialize_installs_orbit (st : State) :
  well_formed st ->
  match Factory.find "rviz/Orbit" (factory_ st) with
  | None => NodeManager.initialize st = Crash NullDereference
  | Some pc =>
      exists st' a o,
        NodeManager.initialize st = Ok tt st'
        /\ manager_invariant st'
        /\ heap st !! a = None
        /\ current_ st' = Some a
        /\ heap st' !! a = Some o
        /\ class_id_ o = "rviz/Orbit" /\ name_ o = "Current View"
        /\ tuning_ o = pc_defaults pc /\ context_of o = Some (context_ st)
        /\ (exists evs, trace st' = trace st ++ evs ++ [EmitCurrentChanged])
        /\ (forall p, current_ st = Some p ->
              heap st' !! p = None /\ p ∉ root_property_ st')
  end.
Proof.
  intros Hwf. destruct (Factory.find "rviz/Orbit" (factory_ st)) as [pc|] eqn:Hfind.
  - destruct (create_setCurrent_spec st "rviz/Orbit" pc false Hwf Hfind)
      as (st' & Hrun & Hinv & Hc & Ho & Htr & Hprev).
    eexists st', _, _. split; [exact Hrun|]. split; [exact Hinv|].
    split; [apply fresh_not_live|]. split; [exact Hc|]. split; [exact Ho|].
    do 4 (split; [reflexivity|]). split; [|exact Hprev].
    rewrite Htr. destruct (current_ st) as [p|].
    + exists [CallTransitionFrom (fresh (dom (heap st))) p; Disconnect p;
              Connect (fresh (dom (heap st))); Delete p]. reflexivity.
    + exists [Connect (fresh (dom (heap st)))]. reflexivity.
  - unfold NodeManager.initialize. now rewrite (bind_Crash _ _ _ _ (create_None _ _ Hfind)).
Qed.

Lemma initialize_installs_orbit_witness :
  exists st', NodeManager.initialize Fixture.fresh_manager = Ok tt st'
              /\ current_ st' = Some 1%positive.
Proof.
  pose proof (initialize_installs_orbit Fixture.fresh_manager
                (well_formed_new _ _)) as H.
  cbn in H. destruct H as (st' & a & o & Hrun & _ & _ & Hc & _).
  exists st'. split; [exact Hrun|].
  assert (E : NodeManager.initialize Fixture.fresh_manager = Ok tt Fixture.initialized)
    by (vm_compute; reflexivity).
  rewrite E in Hrun. inversion Hrun; subst. reflexivity.
Defined.

Lemma setCurrent_keeps_saved st n on mimic_view st' :
  manager_invariant st -> heap st !! n = Some on -> current_ st <> Some n ->
  NodeManager.setCurrent (Some n) mimic_view st = Ok tt st' ->
  root_property_ st' = n :: skipn 1 (root_property_ st).
Proof.
  intros [(Hnd & Hown & Hlive) (c & Hc & H0)] Hn Hne H.
  destruct (Hlive c Hc) as [po Hp].
  rewrite (setCurrent_replaces _ _ _ _ _ _ Hc Hn Hp) in H by congruence.
  inversion H; subst; cbn.
  destruct (root_property_ st) as [|x rest] eqn:Hroot; [discriminate|].
  cbn in H0. inversion H0; subst x.
  destruct (Hown c) as (po' & Hpo' & Hpar); [rewrite Hroot; left|].
  assert (po' = po) as -> by congruence.
  rewrite Hpar, remove_first_cons_eq. reflexivity.
Qed.

(** X2: [setCurrentNodeControllerType(id)] on a manager in use stops on a
    null dereference when the factory does not know the class; otherwise it
    returns with a new controller of that class as current controller in
    slot 0, after calling [mimic(previous)] on it (not [transitionFrom]),
    disconnecting and deleting the previous current; the saved views keep
    their slots. *)
Theorem setCurrentNodeControllerType_switches_class (st : State) (new_class_id : string) :
  manager_invariant st ->
  match Factory.find new_class_id (factory_ st) with
  | None => NodeManager.setCurrentNodeControllerType new_class_id st = Crash NullDereference
  | Some pc =>
      exists st' a o p,
        NodeManager.setCurrentNodeControllerType new_class_id st = Ok tt st'
        /\ manager_invariant st'
        /\ current_ st = Some p /\ current_ st' = Some a /\ a <> p
        /\ heap st' !! a = Some o
        /\ class_id_ o = new_class_id /\ name_ o = "Current View"
        /\ tuning_ o = pc_defaults pc
        /\ trace st' = trace st ++
             [CallMimic a p; Disconnect p; Connect a; Delete p; EmitCurrentChanged]
        /\ heap st' !! p = None
        /\ root_property_ st' = a :: skipn 1 (root_property_ st)
  end.
Proof.
  intros Hinv. pose proof Hinv as [Hwf (p & Hp & H0)].
  destruct (Factory.find new_class_id (factory_ st)) as [pc|] eqn:Hfind.
  - destruct (create_setCurrent_spec st new_class_id pc true Hwf Hfind)
      as (st' & Hrun & Hinv' & Hc & Ho & Htr & Hprev).
    rewrite Hp in Htr.
    pose proof (create_Some _ _ _ Hfind) as Hcreate. cbv zeta in Hcreate.
    set (a := fresh (dom (heap st))) in *.
    set (o := NodeController_initialize (context_ st)
                (setClassId new_class_id (NodeController_new (pc_defaults pc)))) in *.
    set (st1 := set_heap (<[a := o]> (heap st)) st) in *.
    assert (Hal : allocated st a o st1).
    { split; [apply fresh_not_live|]. split; reflexivity. }
    destruct (allocated_fresh _ _ _ _ Hal Hwf) as (Ha & _ & Hcur).
    assert (Hset : NodeManager.setCurrent (Some a) true st1 = Ok tt st').
    { unfold NodeManager.setCurrentNodeControllerType in Hrun.
      now rewrite (bind_Ok _ _ _ _ _ Hcreate) in Hrun. }
    exists st', a, (setParent true (setName "Current View" o)), p.
    split; [exact Hrun|]. split; [exact Hinv'|]. split; [exact Hp|].
    split; [exact Hc|]. split.
    { intros E. apply Hcur. subst st1. cbn. congruence. }
    split; [exact Ho|]. do 3 (split; [reflexivity|]).
    split; [exact Htr|]. split; [exact (proj1 (Hprev p Hp))|].
    exact (setCurrent_keeps_saved st1 a o true st'
             (allocated_invariant _ _ _ _ Hal Hinv) Ha Hcur Hset).
  - unfold NodeManager.setCurrentNodeControllerType.
    now rewrite (bind_Crash _ _ _ _ (create_None _ _ Hfind)).
Qed.

Lemma fixture_with_two_saved_invariant : manager_invariant Fixture.with_two_saved.
Proof.
  apply (perform_invariant DoCopyCurrentToList Fixture.with_one_saved);
    [|exact I | vm_compute; reflexivity].
  apply (perform_invariant DoCopyCurrentToList Fixture.initialized);
    [|exact I | vm_compute; reflexivity].
  apply (initialize_invariant Fixture.fresh_manager);
    [apply well_formed_new | vm_compute; reflexivity].
Qed.

Lemma setCurrentNodeControllerType_switches_class_witness :
  exists st',
    NodeManager.setCurrentNodeControllerType "rviz_topmap/Edge" Fixture.with_two_saved
      = Ok tt st'
    /\ root_property_ st' = [4; 2; 3]%positive.
Proof.
  pose proof (setCurrentNodeControllerType_switches_class Fixture.with_two_saved
                "rviz_topmap/Edge" fixture_with_two_saved_invariant) as H.
  cbn in H. destruct H as (st' & a & o & p & Hrun & _ & _ & _ & _ & _ & _ & _ & _ & _ & _ & Hroot).
  exists st'. split; [exact Hrun|].
  assert (E : NodeManager.setCurrentNodeControllerType "rviz_topmap/Edge"
                Fixture.with_two_saved
              = Ok tt (Fixture.run (NodeManager.setCurrentNodeControllerType "rviz_topmap/Edge")
                         Fixture.with_two_saved))
    by (vm_compute; reflexivity).
  rewrite E in Hrun. inversion Hrun; subst. vm_compute. reflexivity.
Defined.

(** X3: [setCurrentFrom(source)] for a live source that is not the current
    controller and whose class the factory knows never installs the source
    itself: it returns with a new controller at another address as current
    controller, having the class id and tuning values of the source; the
    source is still live and unchanged; [currentChanged] and then
    [configChanged] are the last things emitted.  [setCurrentFrom(NULL)]
    returns with the state as it was. *)
Theorem setCurrentFrom_installs_a_copy
    (st : State) (x : addr) (src : NodeController) (pc : PluginClass) :
  well_formed st ->
  heap st !! x = Some src ->
  current_ st <> Some x ->
  Factory.find (class_id_ src) (factory_ st) = Some pc ->
  (exists st' a,
     NodeManager.setCurrentFrom (Some x) st = Ok tt st'
     /\ a <> x /\ heap st !! a = None
     /\ current_ st' = Some a
     /\ holds_copy_of st' a src
     /\ heap st' !! x = Some src
     /\ manager_invariant st'
     /\ exists evs, trace st' = trace st ++ evs ++ [EmitCurrentChanged; EmitConfigChanged])
  /\ NodeManager.setCurrentFrom None st = Ok tt st.
Proof.
  intros Hwf Hx Hne Hfind. split; [|reflexivity].
  pose proof (copy_live _ _ _ _ Hx Hfind) as Hcopy. cbv zeta in Hcopy.
  set (a := fresh (dom (heap st))) in *.
  set (o := NodeController_load (Some (NodeController_save src Empty))
              (NodeController_initialize (context_ st)
                 (setClassId (getClassId src) (NodeController_new (pc_defaults pc))))) in *.
  set (st1 := set_heap (<[a := o]> (heap st)) st) in *.
  assert (Hal : allocated st a o st1).
  { split; [apply fresh_not_live|]. split; reflexivity. }
  pose proof (allocated_well_formed _ _ _ _ Hal Hwf) as Hwf1.
  destruct (allocated_fresh _ _ _ _ Hal Hwf) as (Ha & Hnotin & Hcur).
  destruct (setCurrent_well_formed st1 a o false Hwf1 Ha Hnotin Hcur)
    as (st2 & Hset & Hinv & Hc & _).
  assert (Hax : a <> x).
  { intros E. pose proof (fresh_not_live st) as Hf. fold a in Hf. rewrite E in Hf. congruence. }
  exists (log EmitConfigChanged st2), a.
  split.
  { unfold NodeManager.setCurrentFrom.
    erewrite bind_Ok by reflexivity.
    destruct (decide (Some x <> current_ st)) as [_|H]; [|exfalso; apply H; congruence].
    rewrite (bind_Ok _ _ _ _ _ Hcopy).
    now rewrite (bind_Ok _ _ _ _ _ Hset). }
  split; [exact Hax|]. split; [apply fresh_not_live|]. split; [exact Hc|].
  split.
  { exists (setParent true (setName "Current View" o)).
    split; [exact (setCurrent_content _ _ _ _ _ Hwf1 Ha Hcur Hset)|].
    subst o. now rewrite load_save. }
  split.
  { cbn. rewrite (setCurrent_frame _ _ _ _ _ x Hwf1 Ha Hcur Hset) by (auto; exact Hne).
    subst st1. cbn. now rewrite lookup_insert_ne. }
  split; [now apply invariant_log|].
  cbn. rewrite (setCurrent_trace _ _ _ _ _ Hwf1 Ha Hcur Hset).
  subst st1. cbn. destruct (current_ st) as [p|].
  - exists [CallTransitionFrom a p; Disconnect p; Connect a; Delete p].
    now rewrite <- !app_assoc.
  - exists [Connect a]. now rewrite <- !app_assoc.
Qed.

Lemma setCurrentFrom_installs_a_copy_witness :
  exists st' a,
    NodeManager.setCurrentFrom (Some 3%positive) Fixture.with_two_saved = Ok tt st'
    /\ a <> 3%positive /\ current_ st' = Some a.
Proof.
  edestruct (setCurrentFrom_installs_a_copy Fixture.with_two_saved 3%positive)
    as [(st' & a & Hrun & Hne & _ & Hc & _) _].
  - exact (proj1 fixture_with_two_saved_invariant).
  - reflexivity.
  - discriminate.
  - reflexivity.
  - exists st', a. split; [exact Hrun | split; [exact Hne | exact Hc]].
Defined.

(** ** Saved views *)

Lemma container_addChild_default st v o :
  heap st !! v = Some o ->
  NodeControllerContainer.addChild (Some v) default_index st =
    Ok tt (set_heap (<[v := setParent true o]> (heap st))
             (set_children (root_property_ st ++ [v]) st)).
Proof.
  intros Hv. unfold NodeControllerContainer.addChild, default_index.
  change (-1 =? 0)%Z with false. cbv iota.
  rewrite (addChild_live _ _ _ _ Hv).
  change (-1 <? 0)%Z with true. cbn [orb].
  unfold Property.numChildren. rewrite Nat2Z.id. now rewrite insert_at_length.
Qed.

Lemma getNumViews_app st st' a :
  root_property_ st <> [] ->
  root_property_ st' = root_property_ st ++ [a] ->
  NodeManager.getNumViews st' = (NodeManager.getNumViews st + 1)%Z.
Proof.
  intros Hne Hroot. rewrite !getNumViews_length, Hroot.
  destruct (root_property_ st) as [|x rest]; [contradiction|].
  cbn [app skipn]. rewrite !length_drop. cbn [length]. rewrite length_app. cbn. lia.
Qed.

(** X4: [copyCurrentToList()] with a live current controller whose class the
    factory knows returns with one more child after the last slot of the
    tree: a new controller with the class id and tuning values of the
    current one, named with the factory's name of the class and owned by the
    root.  The current controller, the other slots and the trace are as they
    were (the manager emits nothing), and the number of saved views of a
    non-empty tree grows by one.  Without a current controller the call
    returns with the state as it was. *)
Theorem copyCurrentToList_appends_a_copy
    (st : State) (c : addr) (co : NodeController) (pc : PluginClass) :
  current_ st = Some c ->
  heap st !! c = Some co ->
  Factory.find (class_id_ co) (factory_ st) = Some pc ->
  (exists st' a o,
     NodeManager.copyCurrentToList st = Ok tt st'
     /\ heap st !! a = None
     /\ root_property_ st' = root_property_ st ++ [a]
     /\ heap st' !! a = Some o
     /\ name_ o = pc_name pc /\ class_id_ o = class_id_ co /\ tuning_ o = tuning_ co
     /\ parent_ o = true
     /\ current_ st' = Some c
     /\ heap st' !! c = Some co
     /\ trace st' = trace st
     /\ (root_property_ st <> [] ->
         NodeManager.getNumViews st' = (NodeManager.getNumViews st + 1)%Z))
  /\ (forall st0, current_ st0 = None -> NodeManager.copyCurrentToList st0 = Ok tt st0).
Proof.
  intros Hcur Hc Hfind. split.
  - pose proof (copy_live _ _ _ _ Hc Hfind) as Hcopy. cbv zeta in Hcopy.
    set (a := fresh (dom (heap st))) in *.
    set (o := NodeController_load (Some (NodeController_save co Empty))
                (NodeController_initialize (context_ st)
                   (setClassId (getClassId co) (NodeController_new (pc_defaults pc))))) in *.
    set (st1 := set_heap (<[a := o]> (heap st)) st) in *.
    assert (Ha1 : heap st1 !! a = Some o) by (subst st1; cbn; apply lookup_insert_eq).
    assert (Hcid : getClassId o = class_id_ co) by (subst o; now rewrite load_save).
    assert (Hname : Factory.getClassName (getClassId o) st1 = pc_name pc).
    { unfold Factory.getClassName. rewrite Hcid. subst st1. cbn. now rewrite Hfind. }
    set (o2 := setName (pc_name pc) o).
    set (st2 := set_heap (<[a := o2]> (heap st1)) st1).
    assert (Ha2 : heap st2 !! a = Some o2) by (subst st2; cbn; apply lookup_insert_eq).
    assert (Hac : a <> c).
    { intros E. pose proof (fresh_not_live st) as Hf. fold a in Hf. rewrite E in Hf.
      congruence. }
    eexists _, a, (setParent true o2). split.
    { unfold NodeManager.copyCurrentToList.
      erewrite bind_Ok by reflexivity. rewrite Hcur.
      rewrite (bind_Ok _ _ _ _ _ Hcopy).
      rewrite (bind_Ok _ _ _ _ _ (deref_live _ _ _ Ha1)).
      erewrite bind_Ok by reflexivity. rewrite Hname.
      rewrite (bind_Ok _ _ _ _ _ (update_obj_live _ _ _ _ Ha1)).
      fold o2. fold st2. apply (container_addChild_default _ _ _ Ha2). }
    split; [apply fresh_not_live|]. split; [reflexivity|].
    split; [cbn; apply lookup_insert_eq|]. split; [reflexivity|].
    split; [exact Hcid|]. split; [subst o2 o; now rewrite load_save|].
    split; [reflexivity|]. split; [exact Hcur|].
    split; [cbn; now rewrite !lookup_insert_ne|]. split; [reflexivity|].
    intros Hne. now apply (getNumViews_app st _ a).
  - intros st0 H0. unfold NodeManager.copyCurrentToList.
    erewrite bind_Ok by reflexivity. now rewrite H0.
Qed.

Lemma copyCurrentToList_appends_a_copy_witness :
  exists st',
    NodeManager.copyCurrentToList Fixture.initialized = Ok tt st'
    /\ NodeManager.getNumViews st' = 1%Z.
Proof.
  edestruct (copyCurrentToList_appends_a_copy Fixture.initialized 1%positive)
    as [(st' & a & o & Hrun & _ & _ & _ & _ & _ & _ & _ & _ & _ & _ & Hnum) _].
  - reflexivity.
  - reflexivity.
  - reflexivity.
  - exists st'. split; [exact Hrun|]. rewrite Hnum; [reflexivity | discriminate].
Defined.

(** X5: on a tree of [int] size, [getViewAt(i)] for [0 <= i < getNumViews()]
    is the controller in tree slot i+1 and is not [NULL]; for every [int]
    [i >= getNumViews()] it is [NULL]. *)
Theorem getViewAt_agrees_with_getNumViews (st : State) (i : Z) :
  (Property.numChildren st < 2 ^ 31)%Z ->
  (i < 2 ^ 31)%Z ->
  ((0 <= i < NodeManager.getNumViews st)%Z ->
     exists a, NodeManager.getViewAt i st = Some a
               /\ root_property_ st !! Z.to_nat (i + 1) = Some a)
  /\ ((NodeManager.getNumViews st <= i)%Z -> NodeManager.getViewAt i st = None).
Proof.
  intros Hnum Hint. pose proof (getNumViews_le st) as Hle. split.
  - intros Hi.
    replace (Z.to_nat (i + 1)) with (S (Z.to_nat i)) by lia.
    destruct (lookup_lt_is_Some_2 (root_property_ st) (S (Z.to_nat i))) as [a Ha].
    { unfold Property.numChildren in *. lia. }
    exists a. split; [|exact Ha].
    replace i with (Z.of_nat (Z.to_nat i)) by lia.
    rewrite getViewAt_nat by lia. exact Ha.
  - intros Hi. unfold NodeManager.getViewAt.
    assert (H0 : (0 <= NodeManager.getNumViews st)%Z).
    { rewrite getNumViews_length. lia. }
    destruct (Z.ltb_spec i 0); [lia|].
    unfold Property.childAt.
    destruct (Z.eq_dec i (2 ^ 31 - 1)) as [->|Hmax].
    + rewrite wrap_int_max. reflexivity.
    + rewrite wrap_int_small by lia.
      assert (Hout : (Property.numChildren st <= i + 1)%Z).
      { unfold NodeManager.getNumViews in Hi.
        destruct (Z.leb_spec (Property.numChildren st) 0); lia. }
      destruct (Z.ltb_spec (i + 1) (Property.numChildren st)); [lia|].
      now rewrite andb_false_r.
Qed.

Lemma getViewAt_agrees_with_getNumViews_witness :
  NodeManager.getViewAt 1 Fixture.with_two_saved = Some 3%positive
  /\ NodeManager.getViewAt 2 Fixture.with_two_saved = None.
Proof.
  split.
  - destruct (proj1 (getViewAt_agrees_with_getNumViews Fixture.with_two_saved 1
                       ltac:(vm_compute; reflexivity) ltac:(lia)))
      as (a & Ha & Hslot); [vm_compute; split; discriminate || reflexivity|].
    rewrite Ha. vm_compute in Hslot. symmetry. exact Hslot.
  - apply (proj2 (getViewAt_agrees_with_getNumViews Fixture.with_two_saved 2
                    ltac:(vm_compute; reflexivity) ltac:(lia))).
    vm_compute. discriminate.
Defined.

Lemma delete_insert_at (k : nat) (a : addr) (l : list addr) :
  (k <= length l)%nat -> delete k (Property.insert_at k a l) = l.
Proof.
  intros Hk. unfold Property.insert_at.
  rewrite <- (take_drop k l) at 3.
  assert (Hlen : length (firstn k l) = k) by (rewrite length_take; lia).
  revert Hlen. generalize (firstn k l) as front. generalize (skipn k l) as back.
  intros back front. revert k Hk. induction front as [|x front IH]; intros k Hk Hlen.
  - cbn in Hlen. subst k. reflexivity.
  - destruct k as [|k]; [discriminate|]. cbn in Hlen |- *.
    f_equal. apply (IH k); lia.
Qed.

Lemma setParent_twice b b' o : setParent b (setParent b' o) = setParent b o.
Proof. reflexivity. Qed.

(** X6: on a tree of [int] size, [add(view, i)] with [0 <= i < numChildren]
    followed by [takeAt(i)] gives the view back: after [add] the view is
    what [getViewAt(i)] returns and there is one more saved view; [takeAt(i)]
    then returns the view, and the tree, the current pointer and the trace
    are as before [add]; the view is live and has no parent. *)
Theorem add_then_takeAt_gives_the_view_back
    (st : State) (v : addr) (o : NodeController) (index : Z) :
  heap st !! v = Some o ->
  (0 <= index < Property.numChildren st)%Z ->
  (Property.numChildren st < 2 ^ 31)%Z ->
  exists st1 st2,
    NodeManager.add (Some v) index st = Ok tt st1
    /\ NodeManager.getViewAt index st1 = Some v
    /\ NodeManager.getNumViews st1 = (NodeManager.getNumViews st + 1)%Z
    /\ NodeManager.takeAt index st1 = Ok (Some v) st2
    /\ root_property_ st2 = root_property_ st
    /\ heap st2 = <[v := setParent false o]> (heap st)
    /\ current_ st2 = current_ st
    /\ trace st2 = trace st.
Proof.
  intros Hv Hindex Hnum.
  pose proof (add_live _ _ _ index Hv ltac:(lia) Hnum) as Hadd.
  destruct (decide (0 <= index < Property.numChildren st)%Z) as [_|H]; [|contradiction].
  set (k := Z.to_nat (index + 1)) in *.
  set (st1 := set_heap (<[v := setParent true o]> (heap st))
                (set_children (Property.insert_at k v (root_property_ st)) st)) in *.
  assert (Hk : (k <= length (root_property_ st))%nat).
  { unfold Property.numChildren in *. lia. }
  assert (Hslot : root_property_ st1 !! k = Some v).
  { subst st1. cbn. now apply insert_at_lookup. }
  assert (Hv1 : heap st1 !! v = Some (setParent true o)).
  { subst st1. cbn. apply lookup_insert_eq. }
  assert (Hlen1 : length (root_property_ st1) = S (length (root_property_ st))).
  { subst st1. cbn. unfold Property.insert_at.
    rewrite length_app. cbn [length]. rewrite length_take, length_drop. lia. }
  eexists st1, _. split; [exact Hadd|]. split; [|split; [|split]].
  - replace index with (Z.of_nat (Z.to_nat index)) by lia.
    rewrite getViewAt_nat by lia.
    replace (S (Z.to_nat index)) with k by lia. exact Hslot.
  - rewrite !getNumViews_length, !length_drop, Hlen1.
    unfold Property.numChildren in *. lia.
  - unfold NodeManager.takeAt.
    destruct (Z.ltb_spec index 0); [lia|].
    rewrite wrap_int_small by lia.
    replace (index + 1)%Z with (Z.of_nat k) by lia.
    apply (takeChildAt_in_range _ _ _ _ Hslot Hv1).
  - cbn. split; [now apply delete_insert_at|].
    split; [now rewrite insert_insert_eq|]. split; reflexivity.
Qed.

Lemma add_then_takeAt_gives_the_view_back_witness :
  exists st1 st2,
    NodeManager.add (Some 4%positive) 1 Fixture.with_candidate = Ok tt st1
    /\ NodeManager.takeAt 1 st1 = Ok (Some 4%positive) st2
    /\ root_property_ st2 = [1; 2; 3]%positive.
Proof.
  edestruct (add_then_takeAt_gives_the_view_back Fixture.with_candidate 4%positive)
    as (st1 & st2 & Hadd & _ & _ & Htake & Hroot & _).
  - reflexivity.
  - instantiate (1 := 1%Z). vm_compute. split; discriminate || reflexivity.
  - vm_compute. reflexivity.
  - exists st1, st2. split; [exact Hadd | split; [exact Htake | exact Hroot]].
Defined.

Lemma take_from_spec (v : addr) (rest : list addr) : forall (k : nat) st,
  (Property.numChildren st < 2 ^ 31)%Z ->
  skipn (S k) (root_property_ st) = rest ->
  NodeManager.take_from (length rest) (Z.of_nat k) (Some v) st =
    match Property.index_of v rest with
    | Some j => Property.takeChildAt (Z.of_nat (S k + j)) st
    | None => Ok None st
    end.
Proof.
  induction rest as [|a rest IH]; intros k st Hnum Hdrop; [reflexivity|].
  apply drop_cons_inv in Hdrop as [Hk Hdrop].
  pose proof (lookup_lt_Some _ _ _ Hk) as Hlt.
  unfold Property.numChildren in Hnum.
  cbn [NodeManager.take_from length Property.index_of].
  erewrite bind_Ok by reflexivity.
  assert (Hviews : (Z.of_nat k <? NodeManager.getNumViews st)%Z = true).
  { apply Z.ltb_lt. unfold NodeManager.getNumViews, Property.numChildren.
    destruct (Z.leb_spec (Z.of_nat (length (root_property_ st))) 0); lia. }
  rewrite Hviews, getViewAt_nat, Hk by lia.
  rewrite wrap_int_small by lia.
  replace (Z.of_nat k + 1)%Z with (Z.of_nat (S k)) by lia.
  destruct (decide (a = v)) as [->|Hne].
  - destruct (decide (Some v = Some v)) as [_|H]; [|congruence].
    now replace (S k + 0)%nat with (S k) by lia.
  - destruct (decide (Some a = Some v)) as [H|_]; [congruence|].
    rewrite (IH (S k) st) by (unfold Property.numChildren; assumption).
    destruct (Property.index_of v rest) as [j|]; [|reflexivity].
    cbn [fmap option_fmap option_map].
    now replace (S (S k) + j)%nat with (S k + S j)%nat by lia.
Qed.

Lemma getViewAt_in_range st i :
  (Property.numChildren st < 2 ^ 31)%Z ->
  (0 <= i < NodeManager.getNumViews st)%Z ->
  is_Some (NodeManager.getViewAt i st).
Proof.
  intros Hnum Hi. pose proof (getNumViews_le st) as Hle.
  replace i with (Z.of_nat (Z.to_nat i)) by lia.
  rewrite getViewAt_nat by lia.
  apply lookup_lt_is_Some_2. unfold Property.numChildren in *. lia.
Qed.

Lemma take_from_null (n : nat) : forall i st,
  (0 <= i)%Z ->
  (Property.numChildren st < 2 ^ 31)%Z ->
  NodeManager.take_from n i None st = Ok None st.
Proof.
  induction n as [|n IH]; intros i st Hi Hnum; [reflexivity|].
  cbn [NodeManager.take_from]. erewrite bind_Ok by reflexivity.
  destruct (Z.ltb_spec i (NodeManager.getNumViews st)) as [Hlt|_]; [|reflexivity].
  destruct (getViewAt_in_range st i Hnum ltac:(lia)) as [a Ha].
  rewrite Ha. destruct (decide (Some a = None)) as [H|_]; [discriminate|].
  pose proof (getNumViews_le st) as Hle.
  rewrite wrap_int_small by lia. apply IH; [lia | exact Hnum].
Qed.

(** X7: on a tree of [int] size, [take(view)] looks for the view among the
    saved slots only.  When the view is in a saved slot (the first such slot
    being tree slot j+1) and live, [take] returns it, that slot is removed
    from the tree and the view has no parent.  When the view is in no saved
    slot (so also when it is only in slot 0, as the current controller is)
    or is [NULL], [take] returns [NULL] and the state is as it was. *)
Theorem take_searches_saved_slots_only (st : State) :
  (Property.numChildren st < 2 ^ 31)%Z ->
  (forall v j o,
     Property.index_of v (skipn 1 (root_property_ st)) = Some j ->
     heap st !! v = Some o ->
     root_property_ st !! S j = Some v
     /\ NodeManager.take (Some v) st =
          Ok (Some v) (set_heap (<[v := setParent false o]> (heap st))
                         (set_children (delete (S j) (root_property_ st)) st)))
  /\ (forall v, v ∉ skipn 1 (root_property_ st) -> NodeManager.take (Some v) st = Ok None st)
  /\ NodeManager.take None st = Ok None st.
Proof.
  intros Hnum.
  assert (Htake : forall v,
    NodeManager.take (Some v) st =
      match Property.index_of v (skipn 1 (root_property_ st)) with
      | Some j => Property.takeChildAt (Z.of_nat (S j)) st
      | None => Ok None st
      end).
  { intros v. unfold NodeManager.take. erewrite bind_Ok by reflexivity.
    rewrite getNumViews_length, Nat2Z.id.
    apply (take_from_spec v _ 0 st Hnum eq_refl). }
  split; [|split].
  - intros v j o Hj Hv. rewrite Htake, Hj.
    apply index_of_Some in Hj as [Hj _]. rewrite lookup_drop in Hj.
    split; [exact Hj|]. now apply takeChildAt_in_range.
  - intros v Hv. rewrite Htake. apply index_of_None in Hv. now rewrite Hv.
  - unfold NodeManager.take. erewrite bind_Ok by reflexivity.
    apply take_from_null; [lia | exact Hnum].
Qed.

Lemma take_searches_saved_slots_only_witness :
  (exists st', NodeManager.take (Some 3%positive) Fixture.with_two_saved = Ok (Some 3%positive) st'
               /\ root_property_ st' = [1; 2]%positive)
  /\ NodeManager.take (Some 1%positive) Fixture.with_two_saved = Ok None Fixture.with_two_saved.
Proof.
  destruct (take_searches_saved_slots_only Fixture.with_two_saved
              ltac:(vm_compute; reflexivity)) as (Hfound & Hmissing & _).
  split.
  - edestruct (Hfound 3%positive 1%nat) as [_ Htake]; [reflexivity | reflexivity |].
    eexists. split; [exact Htake | reflexivity].
  - apply Hmissing. vm_compute.
    intros H. repeat (apply elem_of_cons in H as [H|H]; [discriminate|]). inversion H.
Defined.

(** ** Loading a config without classes *)

Lemma load_saved_no_class (n : nat) : forall i svc st,
  (forall j, Cfg.mapGetString "Class" (Cfg.listChildAt j svc) = None) ->
  NodeManager.load_saved n i svc st = Ok tt st.
Proof.
  induction n as [|n IH]; intros i svc st Hnone; [reflexivity|].
  cbn [NodeManager.load_saved]. rewrite Hnone.
  erewrite bind_Ok by reflexivity. now apply IH.
Qed.

Lemma removeChildren_deletes st c rest :
  well_formed st ->
  current_ st = Some c ->
  root_property_ st = c :: rest ->
  exists st',
    Property.removeChildren 1 st = Ok tt st'
    /\ current_ st' = Some c
    /\ root_property_ st' = [c]
    /\ heap st' !! c = heap st !! c
    /\ (forall b, b ∈ rest -> heap st' !! b = None)
    /\ trace st' = trace st ++ map Delete rest.
Proof.
  intros (Hnd & Hown & Hlive) Hcur Hroot.
  rewrite Hroot in Hnd. apply NoDup_cons in Hnd as [Hc Hnd].
  destruct (delete_children_spec rest st Hnd)
    as (st1 & Hrun & H1 & H2 & H3 & H4 & H5 & H6 & H7).
  { intros a Ha. destruct (Hown a) as (o & Ho & _); [rewrite Hroot; now right | eauto]. }
  { intros c' Hc'. congruence. }
  unfold Property.removeChildren.
  erewrite bind_Ok by reflexivity.
  rewrite Hroot. change (skipn (Z.to_nat 1) (c :: rest)) with rest.
  rewrite (bind_Ok _ _ _ _ _ Hrun).
  eexists. split; [reflexivity|].
  rewrite H2, Hroot. change (firstn (Z.to_nat 1) (c :: rest)) with [c]. cbn.
  split; [congruence|]. split; [reflexivity|]. split; [now apply H5|].
  split; [exact H6 | exact H7].
Qed.

(** X8: [load] always clears the saved slots.  On a manager in use, a config
    whose "Current" child has no string "Class" and whose "Saved" entries
    have none either (an invalid or empty config, for one) makes [load]
    return with the current controller kept as it is and every saved view
    deleted: the tree is down to slot 0, [getNumViews()] is 0, and the trace
    grew by the deletions, in slot order. *)
Theorem load_without_classes_clears_saved (st : State) (config : option Config) :
  manager_invariant st ->
  Cfg.mapGetString "Class" (Cfg.mapGetChild "Current" config) = None ->
  (forall j, Cfg.mapGetString "Class"
               (Cfg.listChildAt j (Cfg.mapGetChild "Saved" config)) = None) ->
  exists st' c,
    NodeManager.load config st = Ok tt st'
    /\ current_ st = Some c /\ current_ st' = Some c
    /\ heap st' !! c = heap st !! c
    /\ root_property_ st' = [c]
    /\ NodeManager.getNumViews st' = 0%Z
    /\ (forall b, b ∈ skipn 1 (root_property_ st) -> heap st' !! b = None)
    /\ trace st' = trace st ++ map Delete (skipn 1 (root_property_ st)).
Proof.
  intros [Hwf (c & Hc & H0)] Hcurrent Hsaved.
  destruct (root_property_ st) as [|x rest] eqn:Hroot; [discriminate|].
  cbn in H0. inversion H0; subst x; clear H0.
  destruct (removeChildren_deletes st c rest Hwf Hc Hroot)
    as (st' & Hrm & Hc' & Hroot' & Hheap & Hgone & Htrace).
  exists st', c. split.
  { unfold NodeManager.load. rewrite Hcurrent.
    erewrite bind_Ok by reflexivity.
    rewrite (bind_Ok _ _ _ _ _ Hrm). now apply load_saved_no_class. }
  split; [exact Hc|]. split; [exact Hc'|]. split; [exact Hheap|].
  split; [exact Hroot'|]. split; [now rewrite getNumViews_length, Hroot'|].
  split; [exact Hgone | exact Htrace].
Qed.

Lemma load_without_classes_clears_saved_witness :
  exists st',
    NodeManager.load None Fixture.with_two_saved = Ok tt st'
    /\ root_property_ st' = [1%positive]
    /\ trace st' = trace Fixture.with_two_saved ++ [Delete 2%positive; Delete 3%positive].
Proof.
  destruct (load_without_classes_clears_saved Fixture.with_two_saved None
              fixture_with_two_saved_invariant eq_refl (fun j => eq_refl))
    as (st' & c & Hrun & Hc & _ & _ & Hroot & _ & _ & Htrace).
  inversion Hc; subst c.
  exists st'. split; [exact Hrun | split; [exact Hroot | exact Htrace]].
Defined.

(** ** Classes the factory does not know *)

(** X9: no caller of [create] checks its class id.  When the factory does
    not know a class, [setCurrentNodeControllerType] of it, [load] of a
    config whose "Current" names it, and [copy], [setCurrentFrom] and
    [copyCurrentToList] of a live controller carrying it all stop on the
    null dereference in [create]. *)
Theorem unknown_class_faults_in_every_caller (st : State) (class_id : string) :
  Factory.find class_id (factory_ st) = None ->
  NodeManager.setCurrentNodeControllerType class_id st = Crash NullDereference
  /\ (forall config,
        Cfg.mapGetString "Class" (Cfg.mapGetChild "Current" config) = Some class_id ->
        NodeManager.load config st = Crash NullDereference)
  /\ (forall x src,
        heap st !! x = Some src -> class_id_ src = class_id ->
        NodeManager.copy (Some x) st = Crash NullDereference
        /\ (current_ st <> Some x ->
            NodeManager.setCurrentFrom (Some x) st = Crash NullDereference)
        /\ (current_ st = Some x ->
            NodeManager.copyCurrentToList st = Crash NullDereference)).
Proof.
  intros Hfind. pose proof (create_None _ _ Hfind) as Hcreate.
  split; [|split].
  - unfold NodeManager.setCurrentNodeControllerType.
    now rewrite (bind_Crash _ _ _ _ Hcreate).
  - intros config Hclass. unfold NodeManager.load. rewrite Hclass.
    apply bind_Crash. now apply bind_Crash.
  - intros x src Hx Hcid.
    assert (Hcopy : NodeManager.copy (Some x) st = Crash NullDereference).
    { unfold NodeManager.copy. rewrite (bind_Ok _ _ _ _ _ (deref_live _ _ _ Hx)).
      unfold getClassId. rewrite Hcid. now apply bind_Crash. }
    split; [exact Hcopy|]. split.
    + intros Hne. unfold NodeManager.setCurrentFrom.
      erewrite bind_Ok by reflexivity.
      destruct (decide (Some x <> current_ st)) as [_|H]; [|exfalso; apply H; congruence].
      now apply bind_Crash.
    + intros Hcur. unfold NodeManager.copyCurrentToList.
      erewrite bind_Ok by reflexivity. rewrite Hcur. now apply bind_Crash.
Qed.

Lemma unknown_class_faults_in_every_caller_witness :
  NodeManager.setCurrentNodeControllerType "rviz/XYOrbit" Fixture.initialized
    = Crash NullDereference
  /\ NodeManager.load
       (Some (Map [("Current", Map [("Class", Value (QString "rviz/XYOrbit"))])]))
       Fixture.initialized = Crash NullDereference.
Proof.
  destruct (unknown_class_faults_in_every_caller Fixture.initialized "rviz/XYOrbit" eq_refl)
    as (H1 & H2 & _).
  split; [exact H1 | apply H2; reflexivity].
Defined.

(** ** Calls that only read *)



(** ** The container's two ways in *)

(** X11: the container's [addChild] of a live child never takes slot 0 of a
    tree that has children: whatever the index, the child goes to a slot
    from 1 to the end and slot 0 holds what it held; requested index 0 and
    index 1 give the same result.  On an empty tree the child does land in
    slot 0.  [addChildToFront] puts the child in slot 0 in front of the
    children there were.  A [NULL] child changes nothing. *)
Theorem container_addChild_spares_slot0
    (st : State) (child : addr) (o : NodeController) (index : Z) :
  heap st !! child = Some o ->
  (exists k,
     NodeControllerContainer.addChild (Some child) index st =
       Ok tt (set_heap (<[child := setParent true o]> (heap st))
                (set_children (Property.insert_at k child (root_property_ st)) st))
     /\ (k <= length (root_property_ st))%nat
     /\ Property.insert_at k child (root_property_ st) !! k = Some child
     /\ (root_property_ st <> [] ->
         (1 <= k)%nat
         /\ Property.insert_at k child (root_property_ st) !! 0%nat
            = root_property_ st !! 0%nat)
     /\ (root_property_ st = [] ->
         Property.insert_at k child (root_property_ st) = [child]))
  /\ NodeControllerContainer.addChild (Some child) 0 st
     = NodeControllerContainer.addChild (Some child) 1 st
  /\ NodeControllerContainer.addChildToFront (Some child) st =
       Ok tt (set_heap (<[child := setParent true o]> (heap st))
                (set_children (child :: root_property_ st) st))
  /\ NodeControllerContainer.addChild None index st = Ok tt st
  /\ NodeControllerContainer.addChildToFront None st = Ok tt st.
Proof.
  intros Hchild. split; [|split; [reflexivity|split; [|split; reflexivity]]].
  - destruct (NodeControllerContainer.addChild (Some child) index st) as [u st'|f] eqn:Hrun.
    + destruct u. pose proof Hrun as Hinv.
      apply addChild_inv in Hinv as (o' & k & Ho' & -> & Hk & Hk1).
      assert (o' = o) as -> by congruence.
      exists k. split; [reflexivity|]. split; [exact Hk|].
      split; [now apply insert_at_lookup|]. split.
      * intros Hne. split; [now apply Hk1|]. apply insert_at_slot0; auto.
      * intros Hnil. rewrite Hnil in Hk |- *. cbn in Hk.
        replace k with 0%nat by lia. reflexivity.
    + exfalso. unfold NodeControllerContainer.addChild in Hrun.
      rewrite (addChild_live _ _ _ _ Hchild) in Hrun. discriminate.
  - now apply addChildToFront_live.
Qed.

Lemma container_addChild_spares_slot0_witness :
  exists st',
    NodeControllerContainer.addChild (Some 4%positive) 0 Fixture.with_candidate = Ok tt st'
    /\ root_property_ st' = [1; 4; 2; 3]%positive.
Proof.
  destruct (container_addChild_spares_slot0 Fixture.with_candidate 4%positive _ 0 eq_refl)
    as [(k & Hrun & _) _].
  assert (E : NodeControllerContainer.addChild (Some 4%positive) 0 Fixture.with_candidate
              = Ok tt (Fixture.run (NodeControllerContainer.addChild (Some 4%positive) 0)
                         Fixture.with_candidate)) by (vm_compute; reflexivity).
  rewrite E in Hrun. inversion Hrun as [Hst].
  eexists. split; [exact E | vm_compute; reflexivity].
Defined.

(** ** The current controller deleted by somebody else *)

Lemma setCurrent_connects st n on mimic_view st' :
  well_formed st -> heap st !! n = Some on -> current_ st <> Some n ->
  NodeManager.setCurrent (Some n) mimic_view st = Ok tt st' ->
  n ∈ connections st'.
Proof.
  intros (_ & _ & Hlive) Hn Hne H.
  destruct (current_ st) as [p|] eqn:Hc.
  - destruct (Hlive p eq_refl) as [po Hp].
    rewrite (setCurrent_replaces _ _ _ _ _ _ Hc Hn Hp) in H by congruence.
    inversion H; subst; cbn. left.
  - rewrite (setCurrent_no_previous _ _ _ _ Hc Hn) in H.
    inversion H; subst; cbn. left.
Qed.

(** X12: [setCurrent] connects [onCurrentDestroyed] to the controller it
    installs, so the current pointer never dangles: when the controller
    installed by [setCurrent] is afterwards deleted by somebody else, the
    deletion returns with [getCurrent()] [NULL], the controller out of the
    tree and the saved views moved up by one slot; [update] then returns
    without touching anything, and [save] stops on the null dereference. *)
Theorem deleting_the_current_clears_the_pointer
    (st : State) (n : addr) (on : NodeController) (mimic_view : bool) :
  well_formed st ->
  heap st !! n = Some on ->
  n ∉ root_property_ st ->
  current_ st <> Some n ->
  exists st1 st2,
    NodeManager.setCurrent (Some n) mimic_view st = Ok tt st1
    /\ current_ st1 = Some n
    /\ Property.destroy (Some n) st1 = Ok tt st2
    /\ current_ st2 = None
    /\ heap st2 !! n = None
    /\ root_property_ st2 = skipn 1 (root_property_ st1)
    /\ (n ∉ root_property_ st2)
    /\ NodeManager.update st2 = Ok tt st2
    /\ forall config, NodeManager.save config st2 = Crash NullDereference.
Proof.
  intros Hwf Hn Hnotin Hne.
  destruct (setCurrent_well_formed st n on mimic_view Hwf Hn Hnotin Hne)
    as (st1 & Hset & [Hwf1 (c & Hc & H0)] & Hcur & _).
  rewrite Hcur in Hc. inversion Hc; subst c; clear Hc.
  pose proof (setCurrent_content _ _ _ _ _ Hwf Hn Hne Hset) as Hcontent.
  pose proof (setCurrent_connects _ _ _ _ _ Hwf Hn Hne Hset) as Hconn.
  pose proof (destroy_live _ _ _ Hcontent) as Hdel.
  destruct (root_property_ st1) as [|x rest] eqn:Hroot; [discriminate|].
  cbn in H0. inversion H0; subst x; clear H0.
  assert (Hnd : NoDup (n :: rest)) by (rewrite <- Hroot; exact (proj1 Hwf1)).
  apply NoDup_cons in Hnd as [Hnrest _].
  exists st1, (after_destroy n (setParent true (setName "Current View" on)) st1).
  split; [exact Hset|]. split; [exact Hcur|]. split; [exact Hdel|].
  assert (Hnull : current_ (after_destroy n (setParent true (setName "Current View" on)) st1)
                  = None).
  { cbn. destruct (decide (Some n = current_ st1 /\ n ∈ connections st1)) as [_|H];
      [reflexivity|]. exfalso. apply H. split; [now rewrite Hcur | exact Hconn]. }
  split; [exact Hnull|]. split; [cbn; apply lookup_delete_eq|].
  assert (Hroot2 : root_property_
                     (after_destroy n (setParent true (setName "Current View" on)) st1)
                   = rest).
  { cbn. rewrite Hroot. apply remove_first_cons_eq. }
  split; [rewrite Hroot; exact Hroot2|]. split; [now rewrite Hroot2|]. split.
  - unfold NodeManager.update. erewrite bind_Ok by reflexivity. now rewrite Hnull.
  - intros config. now apply save_without_current.
Qed.

Lemma deleting_the_current_clears_the_pointer_witness :
  exists st1 st2,
    NodeManager.setCurrent (Some 4%positive) false Fixture.with_candidate = Ok tt st1
    /\ Property.destroy (Some 4%positive) st1 = Ok tt st2
    /\ current_ st2 = None.
Proof.
  edestruct (deleting_the_current_clears_the_pointer Fixture.with_candidate 4%positive)
    with (mimic_view := false)
    as (st1 & st2 & Hset & _ & Hdel & Hnull & _).
  - apply (allocated_well_formed Fixture.with_two_saved 4%positive
             (NodeController_initialize 1%positive
                (setClassId "rviz_topmap/Edge"
                   (NodeController_new (mkTuning 2 false true 7 200))))).
    + split; [reflexivity|]. split; [reflexivity|]. vm_compute. reflexivity.
    + exact (proj1 fixture_with_two_saved_invariant).
  - reflexivity.
  - vm_compute. intros H.
    repeat (apply elem_of_cons in H as [H|H]; [discriminate|]). inversion H.
  - discriminate.
  - exists st1, st2. split; [exact Hset | split; [exact Hdel | exact Hnull]].
Defined.

(** ** Taking by index *)

(** X13: on a tree of [int] size with live children, [takeAt(i)] for a
    non-negative [int] [i] returns exactly what [getViewAt(i)] shows.  When
    that is [NULL] (index past the saved views) the state is as it was; when
    it is a controller, that slot i+1 is removed from the tree, there is one
    saved view less, and the current pointer is as it was. *)
Theorem takeAt_returns_what_getViewAt_shows (st : State) (i : Z) :
  children_live st ->
  (Property.numChildren st < 2 ^ 31)%Z ->
  (0 <= i < 2 ^ 31)%Z ->
  exists st',
    NodeManager.takeAt i st = Ok (NodeManager.getViewAt i st) st'
    /\ (NodeManager.getViewAt i st = None -> st' = st)
    /\ (is_Some (NodeManager.getViewAt i st) ->
        root_property_ st' = delete (Z.to_nat (i + 1)) (root_property_ st)
        /\ NodeManager.getNumViews st' = (NodeManager.getNumViews st - 1)%Z
        /\ current_ st' = current_ st).
Proof.
  intros Hlive Hnum Hi.
  unfold NodeManager.takeAt, NodeManager.getViewAt.
  destruct (Z.ltb_spec i 0); [lia|].
  destruct (Z.eq_dec i (2 ^ 31 - 1)) as [->|Hmax].
  { rewrite wrap_int_max. exists st. split; [reflexivity|].
    split; [reflexivity|]. intros [a Ha]. discriminate. }
  rewrite wrap_int_small by lia.
  destruct (Z.leb_spec (Property.numChildren st) (i + 1)) as [Hout|Hin].
  - exists st. rewrite takeChildAt_out_of_range by lia.
    assert (Hnone : Property.childAt (i + 1) st = None).
    { unfold Property.childAt.
      destruct (Z.ltb_spec (i + 1) (Property.numChildren st)); [lia|].
      now rewrite andb_false_r. }
    rewrite Hnone. split; [reflexivity|]. split; [reflexivity|].
    intros [a Ha]. discriminate.
  - pose proof Hin as Hin'. unfold Property.numChildren in Hin'.
    destruct (lookup_lt_is_Some_2 (root_property_ st) (Z.to_nat (i + 1))) as [a Ha]; [lia|].
    destruct (Hlive a) as [o Ho]; [eapply list_elem_of_lookup_2; exact Ha|].
    set (j := Z.to_nat (i + 1)) in *.
    assert (Hj : (i + 1)%Z = Z.of_nat j) by lia.
    rewrite Hj, childAt_lookup, Ha.
    rewrite (takeChildAt_in_range _ _ _ _ Ha Ho).
    eexists. split; [reflexivity|]. split; [discriminate|].
    intros _. cbn. split; [reflexivity|]. split; [|reflexivity].
    unfold NodeManager.getNumViews, Property.numChildren. cbn.
    rewrite length_delete by eauto.
    destruct (Z.leb_spec (Z.of_nat (length (root_property_ st) - 1)) 0);
      destruct (Z.leb_spec (Z.of_nat (length (root_property_ st))) 0); lia.
Qed.

Lemma takeAt_returns_what_getViewAt_shows_witness :
  exists st',
    NodeManager.takeAt 0 Fixture.with_two_saved = Ok (Some 2%positive) st'
    /\ root_property_ st' = [1; 3]%positive.
Proof.
  destruct (takeAt_returns_what_getViewAt_shows Fixture.with_two_saved 0
              fixture_with_two_saved_live ltac:(vm_compute; reflexivity) ltac:(lia))
    as (st' & Htake & _ & Hsome).
  exists st'. split; [exact Htake|].
  destruct Hsome as (Hroot & _); [vm_compute; eauto|].
  rewrite Hroot. reflexivity.
Defined.

(** ** A manager in use can be saved *)

(** X14: a manager that satisfies the invariant established by
    [initialize()] and kept by the manager's calls, with a tree of [int]
    size, can always be saved: [save] returns a config and leaves the state
    as it is. *)
Theorem save_returns_on_a_manager_in_use (st : State) (config : Config) :
  manager_invariant st ->
  (Property.numChildren st < 2 ^ 31)%Z ->
  exists c cur views,
    current_ st = Some c /\ heap st !! c = Some cur
    /\ Forall2 (fun a o => heap st !! a = Some o) (skipn 1 (root_property_ st)) views
    /\ NodeManager.save config st = Ok (saved_config cur views config) st.
Proof.
  intros [(Hnd & Hown & Hlive) (c & Hc & H0)] Hnum.
  destruct (Hlive c Hc) as [cur Hcur].
  destruct (live_objects (heap st) (skipn 1 (root_property_ st))) as [views Hviews].
  { intros a Ha. destruct (Hown a) as (o & Ho & _); [|eauto].
    destruct (root_property_ st); [assumption | now right]. }
  exists c, cur, views. split; [exact Hc|]. split; [exact Hcur|].
  split; [exact Hviews|]. now apply (save_spec _ _ _ _ _ Hc Hcur Hviews).
Qed.

Lemma save_returns_on_a_manager_in_use_witness :
  exists cfg, NodeManager.save Empty Fixture.with_two_saved = Ok cfg Fixture.with_two_saved.
Proof.
  destruct (save_returns_on_a_manager_in_use Fixture.with_two_saved Empty
              fixture_with_two_saved_invariant ltac:(vm_compute; reflexivity))
    as (c & cur & views & _ & _ & _ & Hsave).
  eexists. exact Hsave.
Defined.
